(** * Asset proxy: identifier codec, transform parameters, request orchestration

    A shallow embedding of

    - [src/lib/convertion-utils.ts]: [uuidToBase62], [base62ToUuid],
      [mimeToExtension];
    - [src/app/a/[hash]/[...name]/route.ts]: [parseTransformParams], [GET].

    JavaScript strings are modelled by [string], read as sequences of code
    units below 256.  A [BigInt] is a [Z].  A [Number] holding the result of
    [parseInt] is an [option Z]: [None] stands for [NaN], [Some z] for the
    double whose value is the integer [z], and [Some JS.INFINITY] for
    [Infinity]; [JS.to_Number] rounds an integer to the nearest double.
    A thrown exception is the [Throw] branch of [result]. *)

From Stdlib Require Import ZArith List String Ascii Bool Lia.
Import ListNotations.

Local Open Scope string_scope.
Local Open Scope Z_scope.

(** ** Exceptions *)

Inductive exn : Type :=
| InvalidBase62Character (c : ascii)
| SyntaxError
| TypeError
| RuntimeError (msg : string).

Inductive result (A : Type) : Type :=
| Ok (a : A)
| Throw (e : exn).

Arguments Ok {A} a.
Arguments Throw {A} e.

Definition bind {A B : Type} (c : result A) (k : A -> result B) : result B :=
  match c with
  | Ok a => k a
  | Throw e => Throw e
  end.

Notation "x <- c ;; k" := (bind c (fun x => k))
  (at level 61, c at next level, right associativity).

(** ** The string operations of the platform that the code calls *)

Module JS.

Fixpoint repeat_char (c : ascii) (n : nat) : string :=
  match n with
  | O => ""
  | S n' => String c (repeat_char c n')
  end.

(** [s.padStart(n, c)] for a one-character pad string. *)
Definition padStart (s : string) (n : nat) (c : ascii) : string :=
  repeat_char c (n - String.length s) ++ s.

(** [s.slice(a, b)] for [0 <= a <= b]. *)
Definition slice (s : string) (a b : nat) : string :=
  substring a (b - a) s.

(** [s.replace(/c/g, '')]. *)
Fixpoint remove_char (c : ascii) (s : string) : string :=
  match s with
  | "" => ""
  | String d r =>
      if Ascii.eqb d c then remove_char c r else String d (remove_char c r)
  end.

(** [s.indexOf(c)] for a one-character [c]: the scan from the left, [i]
    being the position reached; [-1] when absent. *)
Fixpoint indexOf_from (c : ascii) (s : string) (i : Z) : Z :=
  match s with
  | "" => -1
  | String d r => if Ascii.eqb c d then i else indexOf_from c r (i + 1)
  end.

Definition indexOf (c : ascii) (s : string) : Z := indexOf_from c s 0.

(** [s[i]], with [undefined] rendered as the empty string, which is what
    [join] makes of it. *)
Definition char_at (s : string) (i : Z) : string :=
  if i <? 0 then "" else substring (Z.to_nat i) 1 s.

(** [l.join(sep)]. *)
Definition join (sep : string) (l : list string) : string :=
  String.concat sep l.

(** [s.split(c)] for a one-character separator: the pieces between the
    occurrences of [c]; always at least one piece. *)
Fixpoint split (c : ascii) (s : string) : list string :=
  match s with
  | "" => [""]
  | String d r =>
      if Ascii.eqb d c then "" :: split c r
      else match split c r with
           | [] => [String d ""]
           | p :: ps => String d p :: ps
           end
  end.

(** The white space that [parseInt] and [BigInt] strip. *)
Definition is_whitespace (c : ascii) : bool :=
  let n := N_of_ascii c in
  ((9 <=? n) && (n <=? 13) || (n =? 32) || (n =? 160))%N.

Fixpoint trimStart (s : string) : string :=
  match s with
  | "" => ""
  | String c r => if is_whitespace c then trimStart r else s
  end.

Fixpoint trimEnd (s : string) : string :=
  match s with
  | "" => ""
  | String c r =>
      match trimEnd r with
      | "" => if is_whitespace c then "" else String c ""
      | r' => String c r'
      end
  end.

Definition toLowerChar (c : ascii) : ascii :=
  let n := N_of_ascii c in
  if ((65 <=? n) && (n <=? 90))%N then ascii_of_N (n + 32) else c.

Fixpoint toLowerCase (s : string) : string :=
  match s with
  | "" => ""
  | String c r => String (toLowerChar c) (toLowerCase r)
  end.

(** The digits of [num > 0] in a radix, most significant first, pushed in
    front of [chars]: the loop

      while (num > 0) { chars.unshift(symbols[num % radix]); num = num / radix }

    [BigInt] division truncates, hence [Z.quot] and [Z.rem].  The loop runs
    at most once per binary digit of [num], which is the fuel given to it
    by [digits_of]. *)
Fixpoint digits_loop (symbols : string) (radix : Z)
    (fuel : nat) (num : Z) (chars : list string) : list string :=
  match fuel with
  | O => chars
  | S fuel' =>
      if 0 <? num
      then digits_loop symbols radix fuel'
             (Z.quot num radix) (char_at symbols (Z.rem num radix) :: chars)
      else chars
  end.

Definition loop_fuel (num : Z) : nat := S (Z.to_nat (Z.log2 num)).

Definition digits_of (symbols : string) (radix : Z) (num : Z) : list string :=
  digits_loop symbols radix (loop_fuel num) num [].

Definition RADIX_DIGITS : string := "0123456789abcdefghijklmnopqrstuvwxyz".

(** [num.toString(radix)] for an integer and [2 <= radix <= 36]. *)
Definition toString (num : Z) (radix : Z) : string :=
  if num =? 0 then "0"
  else if num <? 0
       then "-" ++ join "" (digits_of RADIX_DIGITS radix (- num))
       else join "" (digits_of RADIX_DIGITS radix num).

(** The value of a digit in a radix up to 36, either case; [-1] when the
    character is no digit of that radix. *)
Definition digit_value (radix : Z) (c : ascii) : Z :=
  let i := indexOf (toLowerChar c) RADIX_DIGITS in
  if i <? radix then i else -1.

(** Reads digits from the left for as long as there are any.  Returns the
    accumulated value, how many digits were read, and what is left. *)
Fixpoint read_digits (radix : Z) (s : string) (acc : Z) (n : nat)
    : Z * nat * string :=
  match s with
  | "" => (acc, n, "")
  | String c r =>
      let d := digit_value radix c in
      if d <? 0 then (acc, n, s)
      else read_digits radix r (acc * radix + d) (S n)
  end.

(** [BigInt('0x' + hex)].  The argument starts with [0x], so it is a
    numeric string only as a hexadecimal literal: at least one hex digit,
    then optional white space.  Anything else is a [SyntaxError]. *)
Definition BigInt_0x (hex : string) : result Z :=
  match read_digits 16 (trimEnd hex) 0 0 with
  | (v, S _, "") => Ok v
  | _ => Throw SyntaxError
  end.

(** The integer that [parseInt(s)], with no radix argument, reads in
    [s]: the digits it accepts, with their sign, exactly; [None] when it
    reads none and returns [NaN].  What it returns is this integer made
    a [Number], [parseInt_Number] below. *)
Definition parseInt (s : string) : option Z :=
  let s1 := trimStart s in
  let '(sign, s2) :=
    match s1 with
    | String "-" r => (-1, r)
    | String "+" r => (1, r)
    | _ => (1, s1)
    end in
  let '(radix, s3) :=
    match s2 with
    | String "0" (String "x" r) => (16, r)
    | String "0" (String "X" r) => (16, r)
    | _ => (10, s2)
    end in
  match read_digits radix s3 0 0 with
  | (_, O, _) => None
  | (v, S _, _) => Some (sign * v)
  end.

(** [Infinity], and [-Infinity] as its opposite: beyond every double. *)
Definition INFINITY : Z := 2 ^ 1024.

(** The [Number] for an integer: the integer itself below 2^53; above,
    the nearest integer with 53 significant bits, the even one of two
    that are as near; [Infinity] from 2^1024 on. *)
Definition to_Number (z : Z) : Z :=
  let a := Z.abs z in
  if a <? 2 ^ 53 then z
  else
    let e := Z.log2 a - 52 in
    let q := a / 2 ^ e in
    let r := a mod 2 ^ e in
    let q' :=
      if 2 * r <? 2 ^ e then q
      else if 2 * r =? 2 ^ e then (if Z.even q then q else q + 1)
      else q + 1 in
    Z.sgn z * Z.min (q' * 2 ^ e) INFINITY.

(** [parseInt(s)] with no radix argument, as the [Number] it returns:
    the integer read, rounded once, as Node does.  (The standard also
    lets an implementation cut a decimal numeral after its twentieth
    significant digit; up to 2^53 nothing is rounded either way.) *)
Definition parseInt_Number (s : string) : option Z :=
  option_map to_Number (parseInt s).

(** The bytes that the Fetch standard calls HTTP white space, and those
    that no header value may hold. *)
Definition is_http_whitespace (c : ascii) : bool :=
  let n := N_of_ascii c in
  ((n =? 9) || (n =? 10) || (n =? 13) || (n =? 32))%N.

Definition is_header_break (c : ascii) : bool :=
  let n := N_of_ascii c in
  ((n =? 0) || (n =? 10) || (n =? 13))%N.

Fixpoint strip_start (s : string) : string :=
  match s with
  | "" => ""
  | String c r => if is_http_whitespace c then strip_start r else s
  end.

Fixpoint strip_end (s : string) : string :=
  match s with
  | "" => ""
  | String c r =>
      match strip_end r with
      | "" => if is_http_whitespace c then "" else String c ""
      | r' => String c r'
      end
  end.

Fixpoint has_char (p : ascii -> bool) (s : string) : bool :=
  match s with
  | "" => false
  | String c r => p c || has_char p r
  end.

(** The value of a header as [new Response(body, { headers })] takes it:
    white space at both ends goes; a NUL, a line feed or a carriage
    return left inside is a [TypeError].  (The characters of a [string]
    are below 256, as a header value asks.) *)
Definition header_value (v : string) : result string :=
  let v := strip_end (strip_start v) in
  if has_char is_header_break v then Throw TypeError else Ok v.

(** The characters that a URL path keeps as they are, whatever the
    parser: letters, digits, and - . _ ~ *)
Definition is_unreserved (c : ascii) : bool :=
  let n := N_of_ascii c in
  ((48 <=? n) && (n <=? 57) || (65 <=? n) && (n <=? 90)
   || (97 <=? n) && (n <=? 122)
   || (n =? 45) || (n =? 46) || (n =? 95) || (n =? 126))%N.

(** A path that [new URL(path, base)] takes as it is: it starts with
    one slash, is made of the characters above and slashes, and none of
    its segments is a dot or two. *)
Definition plain_path (path : string) : bool :=
  match path with
  | String "/" rest =>
      negb match rest with
           | String "/" _ => true
           | _ => false
           end
      && negb (has_char (fun c => negb (is_unreserved c || Ascii.eqb c "/"))
                 rest)
      && forallb (fun seg => negb (String.eqb seg "." || String.eqb seg ".."))
           (split "/" rest)
  | _ => false
  end.

End JS.

(** ** [src/lib/convertion-utils.ts] *)

Definition BASE62_CHARS : string :=
  "0123456789ABCDEFGHIJKLMNOPQRSTUVWXYZabcdefghijklmnopqrstuvwxyz".

Definition uuidToBase62 (uuid : string) : result string :=
  let hex := JS.remove_char "-" uuid in
  num <- JS.BigInt_0x hex ;;
  if num =? 0 then Ok (JS.padStart "0" 22 "0")
  else
    let chars := JS.digits_of BASE62_CHARS 62 num in
    Ok (JS.padStart (JS.join "" chars) 22 "0").

(** The [for ... of] loop of [base62ToUuid]. *)
Fixpoint base62_loop (b62 : string) (num : Z) : result Z :=
  match b62 with
  | "" => Ok num
  | String char rest =>
      let idx := JS.indexOf char BASE62_CHARS in
      if idx =? -1 then Throw (InvalidBase62Character char)
      else base62_loop rest (num * 62 + idx)
  end.

Definition base62ToUuid (b62 : string) : result string :=
  num <- base62_loop b62 0 ;;
  let hex := JS.padStart (JS.toString num 16) 32 "0" in
  Ok (JS.join "-"
        [ JS.slice hex 0 8; JS.slice hex 8 12; JS.slice hex 12 16;
          JS.slice hex 16 20; JS.slice hex 20 32 ]).


(** The names every object literal inherits from [Object.prototype]; each
    is bound there to a function or an object, never to a string. *)
Definition OBJECT_PROTOTYPE_KEYS : list string :=
  [ "constructor"; "hasOwnProperty"; "isPrototypeOf"; "propertyIsEnumerable";
    "toLocaleString"; "toString"; "valueOf"; "__proto__";
    "__defineGetter__"; "__defineSetter__";
    "__lookupGetter__"; "__lookupSetter__" ].

(** What a property read on an object literal of strings gives. *)
Inductive js_value : Type :=
| JsString (s : string)
| JsInherited (key : string)
| JsUndefined.

Fixpoint own_property (obj : list (string * string)) (key : string)
    : option string :=
  match obj with
  | [] => None
  | (k, v) :: rest => if String.eqb k key then Some v else own_property rest key
  end.

(** [obj[key]]: an own property first, then the prototype. *)
Definition get_property (obj : list (string * string)) (key : string)
    : js_value :=
  match own_property obj key with
  | Some v => JsString v
  | None =>
      if existsb (String.eqb key) OBJECT_PROTOTYPE_KEYS
      then JsInherited key else JsUndefined
  end.

Definition MIME_MAP : list (string * string) :=
  [ ("image/jpeg", "jpg"); ("image/jpg", "jpg"); ("image/png", "png");
    ("image/gif", "gif"); ("image/webp", "webp"); ("image/avif", "avif");
    ("image/bmp", "bmp"); ("image/tiff", "tiff"); ("image/svg+xml", "svg");
    ("video/mp4", "mp4"); ("video/mpeg", "mpeg"); ("video/webm", "webm");
    ("video/ogg", "ogv"); ("video/quicktime", "mov"); ("audio/mpeg", "mp3");
    ("audio/mp3", "mp3"); ("audio/wav", "wav"); ("audio/ogg", "ogg");
    ("audio/webm", "weba"); ("audio/aac", "aac"); ("application/pdf", "pdf") ].

(** [a.pop()] on a fresh array: its last element. *)
Definition pop (a : list string) : js_value :=
  match rev a with
  | [] => JsUndefined
  | x :: _ => JsString x
  end.

(** [a || b]: [a] when it is truthy. *)
Definition js_or (a b : js_value) : js_value :=
  match a with
  | JsString "" => b
  | JsUndefined => b
  | _ => a
  end.

Definition mimeToExtension (mimeType : string) : js_value :=
  js_or (js_or (get_property MIME_MAP mimeType) (pop (JS.split "/" mimeType)))
        (JsString "bin").

(** ** [src/app/a/[hash]/[...name]/route.ts]: the transform parameters *)

Definition URLSearchParams : Type := list (string * string).

(** [searchParams.get(name)]: the first value under [name], or [null]. *)
Fixpoint get (searchParams : URLSearchParams) (name : string)
    : option string :=
  match searchParams with
  | [] => None
  | (k, v) :: rest => if String.eqb k name then Some v else get rest name
  end.

(** [searchParams.delete(name)]: every pair under [name] goes. *)
Fixpoint delete (searchParams : URLSearchParams) (name : string)
    : URLSearchParams :=
  match searchParams with
  | [] => []
  | (k, v) :: rest =>
      if String.eqb k name then delete rest name
      else (k, v) :: delete rest name
  end.

(** [v || ''] on a string or [null]. *)
Definition or_empty (v : option string) : string :=
  match v with
  | Some s => s
  | None => ""
  end.

(** [x > 0] on a [Number]; [NaN > 0] is false. *)
Definition gt0 (x : option Z) : bool :=
  match x with
  | Some v => 0 <? v
  | None => false
  end.

Record Transform : Type := mkTransform {
  width : option Z;
  height : option Z;
  quality : Z
}.

Definition parseTransformParams (searchParams : URLSearchParams)
    : option Transform :=
  let width := JS.parseInt_Number (or_empty (get searchParams "width")) in
  let height := JS.parseInt_Number (or_empty (get searchParams "height")) in
  let quality := JS.parseInt_Number (or_empty (get searchParams "quality")) in
  let hasParams := gt0 width || gt0 height || gt0 quality in
  if negb hasParams then None
  else Some {|
    width := if gt0 width then width else None;
    height := if gt0 height then height else None;
    quality := match quality with
               | Some q => if 0 <? q then Z.min q 100 else 80
               | None => 80
               end
  |}.

(** ** [src/app/a/[hash]/[...name]/route.ts]: the request handler *)

Definition bytes : Type := list Byte.byte.

(** Modelled from the spec: the asset record that the catalog returns (its
    type is declared with the asset repository, outside [src/]).  The
    handler reads [storage_path] and [mime_type]; either may be [null]. *)
Record Asset : Type := mkAsset {
  storage_path : option string;
  mime_type : option string;
  filename : option string
}.

(** The parts of a parsed URL that the handler touches. *)
Record URL : Type := mkURL {
  origin : string;
  pathname : string;
  search : string;
  fragment : string
}.

(** [u.search = s]. *)
Definition set_search (u : URL) (s : string) : URL :=
  {| origin := origin u; pathname := pathname u;
     search := s; fragment := fragment u |}.

(** [u.toString()] of a URL without credentials. *)
Definition href (u : URL) : string :=
  origin u ++ pathname u ++ search u ++ fragment u.

(** The request after [await params]: the two route parameters, and
    [new URL(request.url)], an http or https URL, with its
    [searchParams]. *)
Record Request : Type := mkRequest {
  hash : string;
  name : list string;
  url : URL;
  searchParams : URLSearchParams
}.

(** The answer of [fetch]. *)
Record FetchResponse : Type := mkFetchResponse {
  ok : bool;
  arrayBuffer : bytes
}.

(** A [sharp] pipeline: its input and the operations queued on it.  The
    resize options of the handler are constants ([fit: 'cover'],
    [withoutEnlargement: true]) and are left out. *)
Record Pipeline : Type := mkPipeline {
  input : bytes;
  resize : option (option Z * option Z);
  webp : option Z
}.

Definition sharp (buffer : bytes) : Pipeline :=
  {| input := buffer; resize := None; webp := None |}.

Definition with_resize (p : Pipeline) (w h : option Z) : Pipeline :=
  {| input := input p; resize := Some (w, h); webp := webp p |}.

Definition with_webp (p : Pipeline) (q : Z) : Pipeline :=
  {| input := input p; resize := resize p; webp := Some q |}.

(** The storage client: [storage.from(bucket).getPublicUrl(path)], down to
    [data.publicUrl]. *)
Record Supabase : Type := mkSupabase {
  getPublicUrl : string -> string -> string
}.

(** What the handler imports or calls and [src/] does not hold: the
    catalog, the canonical path, the classification of MIME types, the
    storage client and its bucket, [fetch], the URL parser on what is
    no plain path, and the encoder behind [pipeline.toBuffer()].  Each
    call that can throw or reject returns a [result]. *)
Record Env : Type := mkEnv {
  getAssetForProxy : string -> result (option Asset);
  getAssetProxyUrl : Asset -> result (option string);
  isAssetOfType : option string -> string -> bool;
  ASSET_CATEGORIES_IMAGES : string;
  getSupabaseAdmin : result (option Supabase);
  STORAGE_BUCKET : string;
  fetch : string -> result FetchResponse;
  new_URL : string -> string -> result URL;
  toBuffer : Pipeline -> result bytes
}.

Inductive Body : Type :=
| BodyText (s : string)
| BodyBytes (b : bytes)
| BodyNull.

Record Response : Type := mkResponse {
  status : Z;
  headers : list (string * string);
  body : Body
}.

(** [new Response(text, { status })]: a body that is a string brings
    its content type.  Header names are written as the handler writes
    them; their case does not count. *)
Definition text_response (text : string) (st : Z) : Response :=
  {| status := st;
     headers := [("Content-Type", "text/plain;charset=UTF-8")];
     body := BodyText text |}.

(** [Response.redirect(location, st)]. *)
Definition redirect_response (location : string) (st : Z) : Response :=
  {| status := st; headers := [("Location", location)]; body := BodyNull |}.

(** Truthiness of a string or [null], and of a number or [undefined]. *)
Definition truthy_string (v : option string) : bool :=
  match v with
  | Some s => negb (String.eqb s "")
  | None => false
  end.

Definition truthy_number (v : option Z) : bool :=
  match v with
  | Some n => negb (n =? 0)
  | None => false
  end.

(** [new URL(path, base)] for [base] the origin of an http or https
    URL.  A plain path is the path of the result as it is, under that
    origin, with no query and no fragment; anything else is left to the
    parser of the platform. *)
Definition new_URL_on (E : Env) (path base : string) : result URL :=
  if JS.plain_path path
  then Ok {| origin := base; pathname := path; search := ""; fragment := "" |}
  else new_URL E path base.

(** Line 63: what follows the third slash of the canonical path. *)
Definition canonical_name (canonicalPath : string) : string :=
  JS.join "/" (skipn 3 (JS.split "/" canonicalPath)).

(** Lines 60 to 70: the redirect, when one is due. *)
Definition check_canonical (E : Env) (request : Request)
    (canonicalPath : option string) : result (option Response) :=
  match canonicalPath with
  | Some path =>
      if truthy_string canonicalPath then
        let requestedName := JS.join "/" (name request) in
        let canonicalName := canonical_name path in
        if negb (String.eqb requestedName canonicalName) then
          redirectUrl <- new_URL_on E path (origin (url request)) ;;
          let redirectUrl := set_search redirectUrl (search (url request)) in
          Ok (Some (redirect_response (href redirectUrl) 301))
        else Ok None
      else Ok None
  | None => Ok None
  end.

(** Lines 114 to 119: the fetched bytes as they are.  [new Response]
    checks the value of the header it is given. *)
Definition passthrough (asset : Asset) (response : FetchResponse)
    : result Response :=
  contentType <-
    JS.header_value (if truthy_string (mime_type asset)
                     then or_empty (mime_type asset)
                     else "application/octet-stream") ;;
  Ok {| status := 200;
        headers := [("Content-Type", contentType)];
        body := BodyBytes (arrayBuffer response) |}.

(** Lines 92 to 101: the pipeline that is run on the fetched bytes. *)
Definition build_pipeline (transform : Transform) (buffer : bytes) : Pipeline :=
  let pipeline := sharp buffer in
  let pipeline :=
    if truthy_number (width transform) || truthy_number (height transform)
    then with_resize pipeline (width transform) (height transform)
    else pipeline in
  with_webp pipeline (quality transform).

(** Lines 105 to 111: the transcoded bytes.  The two header values, a
    constant and a decimal number, pass the check of [new Response] as
    they are. *)
Definition transcoded (resized : bytes) : Response :=
  {| status := 200;
     headers :=
       [ ("Content-Type", "image/webp");
         ("Content-Length", JS.toString (Z.of_nat (List.length resized)) 10) ];
     body := BodyBytes resized |}.

(** Lines 87 to 119: transcode or pass through.  [canResize] keeps the
    transform when it is not [null] and the asset is an image. *)
Definition respond (E : Env) (request : Request) (asset : Asset)
    (response : FetchResponse) : result Response :=
  let transform := parseTransformParams (searchParams request) in
  let canResize :=
    match transform with
    | Some t =>
        if isAssetOfType E (mime_type asset) (ASSET_CATEGORIES_IMAGES E)
        then Some t else None
    | None => None
    end in
  match canResize with
  | Some transform =>
      let buffer := arrayBuffer response in
      resized <- toBuffer E (build_pipeline transform buffer) ;;
      Ok (transcoded resized)
  | None => passthrough asset response
  end.

(** Lines 72 to 119: the storage client, the fetch, the answer. *)
Definition fetch_stage (E : Env) (request : Request) (asset : Asset)
    : result Response :=
  supabase <- getSupabaseAdmin E ;;
  match supabase with
  | None => Ok (text_response "Service unavailable" 503)
  | Some supabase =>
      let publicUrl :=
        getPublicUrl supabase (STORAGE_BUCKET E)
          (or_empty (storage_path asset)) in
      response <- fetch E publicUrl ;;
      if negb (ok response)
      then Ok (text_response "Not found" 404)
      else respond E request asset response
  end.

(** The body of the outer [try]. *)
Definition GET_try (E : Env) (request : Request) : result Response :=
  match base62ToUuid (hash request) with
  | Throw _ => Ok (text_response "Not found" 404)
  | Ok assetId =>
      asset <- getAssetForProxy E assetId ;;
      match asset with
      | None => Ok (text_response "Not found" 404)
      | Some asset =>
          if negb (truthy_string (storage_path asset))
          then Ok (text_response "Not found" 404)
          else
            canonicalPath <- getAssetProxyUrl E asset ;;
            redirect <- check_canonical E request canonicalPath ;;
            match redirect with
            | Some r => Ok r
            | None => fetch_stage E request asset
            end
      end
  end.

Definition GET (E : Env) (request : Request) : Response :=
  match GET_try E request with
  | Ok r => r
  | Throw _ => text_response "Internal server error" 500
  end.

(** ** The migration that creates the storage bucket

    The statements of [up] and [down], each a step on the part of the
    database they touch: the rows of [storage.buckets], the policies on
    [storage.objects], and the bucket of every stored object.  A failed
    statement throws, which ends the migration. *)

Module Migration.

Record Bucket : Type := mkBucket {
  bucket_id : string;
  bucket_name : string;
  bucket_public : bool;
  file_size_limit : Z;
  allowed_mime_types : option (list string)
}.

Inductive Command : Type := FOR_SELECT | FOR_INSERT | FOR_UPDATE | FOR_DELETE.

(** The expressions of the policies: [bucket_id = '...'],
    [(SELECT auth.uid()) IS NOT NULL], [AND]. *)
Inductive Expr : Type :=
| BucketIs (id : string)
| UidIsNotNull
| And (a b : Expr).

Record Policy : Type := mkPolicy {
  policy_name : string;
  policy_command : Command;
  policy_using : option Expr;
  policy_with_check : option Expr
}.

Record Database : Type := mkDatabase {
  buckets : list Bucket;
  policies : list Policy;
  objects : list string
}.

Definition set_buckets (db : Database) (bs : list Bucket) : Database :=
  {| buckets := bs; policies := policies db; objects := objects db |}.

Definition set_policies (db : Database) (ps : list Policy) : Database :=
  {| buckets := buckets db; policies := ps; objects := objects db |}.

(** [INSERT INTO storage.buckets ... ON CONFLICT (id) DO NOTHING]: a row
    with the same id is left as it is; the name of a bucket is unique
    too, and a conflict on it is an error. *)
Definition insert_bucket (b : Bucket) (db : Database) : result Database :=
  if existsb (fun x => String.eqb (bucket_id x) (bucket_id b)) (buckets db)
  then Ok db
  else if existsb (fun x => String.eqb (bucket_name x) (bucket_name b))
            (buckets db)
  then Throw (RuntimeError "duplicate key value violates unique constraint")
  else Ok (set_buckets db (buckets db ++ [b])).

(** [DROP POLICY IF EXISTS name ON storage.objects]. *)
Definition drop_policy_if_exists (name : string) (db : Database)
    : result Database :=
  Ok (set_policies db
        (filter (fun p => negb (String.eqb (policy_name p) name))
           (policies db))).

(** [CREATE POLICY name ON storage.objects ...]: an error when a policy
    of that name is there. *)
Definition create_policy (p : Policy) (db : Database) : result Database :=
  if existsb (fun q => String.eqb (policy_name q) (policy_name p))
       (policies db)
  then Throw (RuntimeError "policy already exists")
  else Ok (set_policies db (policies db ++ [p])).

(** [DELETE FROM storage.buckets WHERE id = ...]: an error while an
    object refers to the bucket. *)
Definition delete_bucket (id : string) (db : Database) : result Database :=
  if existsb (String.eqb id) (objects db)
  then Throw (RuntimeError "violates foreign key constraint")
  else Ok (set_buckets db
             (filter (fun b => negb (String.eqb (bucket_id b) id))
                (buckets db))).

Definition ASSETS : Bucket :=
  {| bucket_id := "assets"; bucket_name := "assets"; bucket_public := true;
     file_size_limit := 52428800; allowed_mime_types := None |}.

Definition PUBLIC_READ : Policy :=
  {| policy_name := "Assets are publicly accessible";
     policy_command := FOR_SELECT;
     policy_using := Some (BucketIs "assets");
     policy_with_check := None |}.

Definition AUTHENTICATED_UPLOAD : Policy :=
  {| policy_name := "Authenticated users can upload assets";
     policy_command := FOR_INSERT;
     policy_using := None;
     policy_with_check := Some (And (BucketIs "assets") UidIsNotNull) |}.

Definition AUTHENTICATED_UPDATE : Policy :=
  {| policy_name := "Authenticated users can update assets";
     policy_command := FOR_UPDATE;
     policy_using := Some (And (BucketIs "assets") UidIsNotNull);
     policy_with_check := Some (And (BucketIs "assets") UidIsNotNull) |}.

Definition AUTHENTICATED_DELETE : Policy :=
  {| policy_name := "Authenticated users can delete assets";
     policy_command := FOR_DELETE;
     policy_using := Some (And (BucketIs "assets") UidIsNotNull);
     policy_with_check := None |}.

Definition up (db : Database) : result Database :=
  db <- insert_bucket ASSETS db ;;
  db <- drop_policy_if_exists "Assets are publicly accessible" db ;;
  db <- drop_policy_if_exists "Anyone can upload assets" db ;;
  db <- drop_policy_if_exists "Anyone can update assets" db ;;
  db <- drop_policy_if_exists "Anyone can delete assets" db ;;
  db <- drop_policy_if_exists "Authenticated users can upload assets" db ;;
  db <- drop_policy_if_exists "Authenticated users can update assets" db ;;
  db <- drop_policy_if_exists "Authenticated users can delete assets" db ;;
  db <- create_policy PUBLIC_READ db ;;
  db <- create_policy AUTHENTICATED_UPLOAD db ;;
  db <- create_policy AUTHENTICATED_UPDATE db ;;
  create_policy AUTHENTICATED_DELETE db.

Definition down (db : Database) : result Database :=
  db <- drop_policy_if_exists "Assets are publicly accessible" db ;;
  db <- drop_policy_if_exists "Anyone can upload assets" db ;;
  db <- drop_policy_if_exists "Anyone can update assets" db ;;
  db <- drop_policy_if_exists "Anyone can delete assets" db ;;
  db <- drop_policy_if_exists "Authenticated users can upload assets" db ;;
  db <- drop_policy_if_exists "Authenticated users can update assets" db ;;
  db <- drop_policy_if_exists "Authenticated users can delete assets" db ;;
  delete_bucket "assets" db.

End Migration.

(** ** Predicates used to state the properties *)

(** *** Identifiers and tokens *)

(** Positional reading of a string in a radix, for a digit function [dv]
    that is negative outside the digits: what [base62_loop] and
    [JS.read_digits] accumulate. *)
Fixpoint accumulate (dv : ascii -> Z) (radix : Z) (s : string) (acc : Z)
    : option Z :=
  match s with
  | "" => Some acc
  | String c r =>
      if dv c <? 0 then None
      else accumulate dv radix r (acc * radix + dv c)
  end.

Fixpoint all_chars (p : ascii -> bool) (s : string) : bool :=
  match s with
  | "" => true
  | String c r => p c && all_chars p r
  end.

(** The index of a character among the 62 symbols, [-1] outside them. *)
Abbreviation base62_index c := (JS.indexOf c BASE62_CHARS).

(** The same, as the digit function of [accumulate]. *)
Abbreviation base62_digit := (fun c : ascii => JS.indexOf c BASE62_CHARS).

(** Every character is one of the 62 symbols. *)
Definition is_base62 (s : string) : bool :=
  all_chars (fun c => 0 <=? base62_index c) s.

(** The number a string of symbols stands for. *)
Definition base62_value (s : string) : option Z :=
  accumulate base62_digit 62 s 0.

(** The token stands for a number below 2^128. *)
Definition in_range (t : string) : bool :=
  match base62_value t with
  | Some v => v <? 2 ^ 128
  | None => false
  end.

(** The first character that is none of the 62 symbols. *)
Fixpoint first_outside (s : string) : option ascii :=
  match s with
  | "" => None
  | String c r => if base62_index c <? 0 then Some c else first_outside r
  end.

(** A hexadecimal digit as [toString(16)] writes it. *)
Definition hex_index (c : ascii) : Z :=
  let i := JS.indexOf c JS.RADIX_DIGITS in if i <? 16 then i else -1.

Definition is_hex_digit (c : ascii) : bool := 0 <=? JS.digit_value 16 c.

(** The shape 8-4-4-4-12: [true] asks for a hex digit, [false] for a dash. *)
Definition UUID_PATTERN : list bool :=
  repeat true 8 ++ false :: repeat true 4 ++ false :: repeat true 4
    ++ false :: repeat true 4 ++ false :: repeat true 12.

Fixpoint has_shape (pattern : list bool) (s : string) : bool :=
  match pattern, s with
  | [], "" => true
  | true :: p, String c r => is_hex_digit c && has_shape p r
  | false :: p, String c r => Ascii.eqb c "-" && has_shape p r
  | _, _ => false
  end.

(** A 128-bit identifier in dashed hex, digits of either case. *)
Definition is_uuid (s : string) : bool := has_shape UUID_PATTERN s.

Definition ZERO_UUID : string := "00000000-0000-0000-0000-000000000000".

(** The digits of [n], as the loop writes them. *)
Definition written (symbols : string) (radix : Z) (n : Z) : string :=
  JS.join "" (JS.digits_of symbols radix n).

(** Thirty-two hex digits with the dashes put back: the last step of
    [base62ToUuid]. *)
Definition dashed (hex : string) : string :=
  JS.join "-"
    [ JS.slice hex 0 8; JS.slice hex 8 12; JS.slice hex 12 16;
      JS.slice hex 16 20; JS.slice hex 20 32 ].

(** The number an identifier stands for: its hex digits, dashes apart. *)
Definition uuid_value (x : string) : option Z :=
  accumulate hex_index 16 (JS.toLowerCase (JS.remove_char "-" x)) 0.

(** What [BigInt] accepts after [0x]: hex digits, at least one, then
    white space or nothing. *)
Definition hex_literal (s : string) : bool :=
  match JS.trimEnd s with
  | "" => false
  | h => all_chars is_hex_digit h
  end.

(** *** MIME types *)

(** The key names no property inherited from [Object.prototype]. *)
Definition not_inherited (key : string) : bool :=
  negb (existsb (String.eqb key) OBJECT_PROTOTYPE_KEYS).

Fixpoint no_char (c : ascii) (s : string) : bool :=
  match s with
  | "" => true
  | String d r => negb (Ascii.eqb d c) && no_char c r
  end.

(** *** Query values *)

(** A decimal digit, and the number a string of them writes. *)
Definition is_digit (c : ascii) : bool :=
  ((48 <=? N_of_ascii c) && (N_of_ascii c <=? 57))%N.

Fixpoint decimal (s : string) (acc : Z) : Z :=
  match s with
  | "" => acc
  | String c r => decimal r (acc * 10 + (Z.of_N (N_of_ascii c) - 48))
  end.

Definition starts_with_digit (s : string) : bool :=
  match s with
  | "" => false
  | String c _ => is_digit c
  end.

(** The number the parser reads under a name: [parseInt(get(name) || '')]. *)
Definition param (searchParams : URLSearchParams) (name : string) : option Z :=
  JS.parseInt_Number (or_empty (get searchParams name)).

(** The number a string of hex digits writes, either case. *)
Definition hex_value (s : string) : option Z :=
  accumulate hex_index 16 (JS.toLowerCase s) 0.

Definition starts_with_hex_digit (s : string) : bool :=
  match s with
  | "" => false
  | String c _ => is_hex_digit c
  end.

(** A decimal digit as [toString(10)] writes it. *)
Definition dec_index (c : ascii) : Z :=
  let i := JS.indexOf c JS.RADIX_DIGITS in if i <? 10 then i else -1.

(** A number the parser keeps: the positive ones. *)
Definition positive (x : option Z) : option Z := if gt0 x then x else None.

(** The quality the parser settles on. *)
Definition resolved_quality (x : option Z) : Z :=
  match x with
  | Some q => if 0 <? q then Z.min q 100 else 80
  | None => 80
  end.

Fixpoint count_char (c : ascii) (s : string) : nat :=
  match s with
  | "" => O
  | String d r => if Ascii.eqb d c then S (count_char c r) else count_char c r
  end.

(** *** Stages of a request *)

(** The three bodies an error response can carry. *)
Definition NOT_FOUND : Response := text_response "Not found" 404.
Definition SERVICE_UNAVAILABLE : Response :=
  text_response "Service unavailable" 503.
Definition INTERNAL_SERVER_ERROR : Response :=
  text_response "Internal server error" 500.

(** The token decodes and the catalog holds the asset, with a storage
    path. *)
Definition found (E : Env) (request : Request) (asset : Asset) : Prop :=
  exists assetId,
    base62ToUuid (hash request) = Ok assetId
    /\ getAssetForProxy E assetId = Ok (Some asset)
    /\ truthy_string (storage_path asset) = true.

(** The request got past the redirect of lines 60 to 70. *)
Definition not_redirected (E : Env) (request : Request) (asset : Asset)
    : Prop :=
  found E request asset
  /\ exists canonicalPath,
       getAssetProxyUrl E asset = Ok canonicalPath
       /\ check_canonical E request canonicalPath = Ok None.

Definition public_url (E : Env) (supabase : Supabase) (asset : Asset)
    : string :=
  getPublicUrl supabase (STORAGE_BUCKET E) (or_empty (storage_path asset)).

(** The bytes of the asset came back from the store. *)
Definition fetched (E : Env) (request : Request) (asset : Asset)
    (response : FetchResponse) : Prop :=
  not_redirected E request asset
  /\ exists supabase,
       getSupabaseAdmin E = Ok (Some supabase)
       /\ fetch E (public_url E supabase asset) = Ok response
       /\ ok response = true.


(** The same collaborators but for the encoder. *)
Definition with_toBuffer (E : Env) (f : Pipeline -> result bytes) : Env :=
  {| getAssetForProxy := getAssetForProxy E;
     getAssetProxyUrl := getAssetProxyUrl E;
     isAssetOfType := isAssetOfType E;
     ASSET_CATEGORIES_IMAGES := ASSET_CATEGORIES_IMAGES E;
     getSupabaseAdmin := getSupabaseAdmin E;
     STORAGE_BUCKET := STORAGE_BUCKET E;
     fetch := fetch E;
     new_URL := new_URL E;
     toBuffer := f |}.

(** The content type of a pass-through. *)
Definition stored_type (asset : Asset) : string :=
  match mime_type asset with
  | Some "" => "application/octet-stream"
  | Some m => m
  | None => "application/octet-stream"
  end.

(** A header value in the sense of the Fetch standard: no white space
    at either end, and no NUL, line feed or carriage return. *)
Fixpoint ends_with_whitespace (s : string) : bool :=
  match s with
  | "" => false
  | String c r =>
      match r with
      | "" => JS.is_http_whitespace c
      | _ => ends_with_whitespace r
      end
  end.

Definition starts_with_whitespace (s : string) : bool :=
  match s with
  | "" => false
  | String c _ => JS.is_http_whitespace c
  end.

Definition is_header_value (v : string) : bool :=
  negb (starts_with_whitespace v) && negb (ends_with_whitespace v)
  && negb (JS.has_char JS.is_header_break v).

(** The same collaborators but for the store and the encoder. *)
Definition with_store (E : Env) (client : result (option Supabase))
    (f : string -> result FetchResponse) (g : Pipeline -> result bytes) : Env :=
  {| getAssetForProxy := getAssetForProxy E;
     getAssetProxyUrl := getAssetProxyUrl E;
     isAssetOfType := isAssetOfType E;
     ASSET_CATEGORIES_IMAGES := ASSET_CATEGORIES_IMAGES E;
     getSupabaseAdmin := client;
     STORAGE_BUCKET := STORAGE_BUCKET E;
     fetch := f;
     new_URL := new_URL E;
     toBuffer := g |}.

(** *** The migration *)

(** The names [up] and [down] drop. *)
Definition DROPPED : list string :=
  [ "Assets are publicly accessible"; "Anyone can upload assets";
    "Anyone can update assets"; "Anyone can delete assets";
    "Authenticated users can upload assets";
    "Authenticated users can update assets";
    "Authenticated users can delete assets" ].

(** The policies [up] creates. *)
Definition CREATED : list Migration.Policy :=
  [ Migration.PUBLIC_READ; Migration.AUTHENTICATED_UPLOAD;
    Migration.AUTHENTICATED_UPDATE; Migration.AUTHENTICATED_DELETE ].

Definition is_dropped (name : string) : bool :=
  existsb (String.eqb name) DROPPED.

(** The policy is none of those that are dropped. *)
Definition kept (p : Migration.Policy) : bool :=
  negb (is_dropped (Migration.policy_name p)).

Definition has_bucket (id : string) (db : Migration.Database) : bool :=
  existsb (fun b => String.eqb (Migration.bucket_id b) id)
    (Migration.buckets db).

Definition has_bucket_named (name : string) (db : Migration.Database) : bool :=
  existsb (fun b => String.eqb (Migration.bucket_name b) name)
    (Migration.buckets db).

(** Some stored object is in the bucket. *)
Definition has_files (id : string) (db : Migration.Database) : bool :=
  existsb (String.eqb id) (Migration.objects db).

(** A database with another bucket and the open policies of old. *)
Definition example_database : Migration.Database :=
  {| Migration.buckets :=
       [ {| Migration.bucket_id := "avatars";
            Migration.bucket_name := "avatars";
            Migration.bucket_public := false;
            Migration.file_size_limit := 1048576;
            Migration.allowed_mime_types := Some ["image/png"] |} ];
     Migration.policies :=
       [ {| Migration.policy_name := "Anyone can upload assets";
            Migration.policy_command := Migration.FOR_INSERT;
            Migration.policy_using := None;
            Migration.policy_with_check :=
              Some (Migration.BucketIs "assets") |};
         {| Migration.policy_name := "Avatars are private";
            Migration.policy_command := Migration.FOR_SELECT;
            Migration.policy_using :=
              Some (Migration.And (Migration.BucketIs "avatars")
                      Migration.UidIsNotNull);
            Migration.policy_with_check := None |} ];
     Migration.objects := ["avatars"] |}.

(** *** An example *)

(** A small world to run the handler in: one image in the catalog,
    stored under a path, with a canonical name; an encoder that hands
    its input back. *)
Definition example_asset : Asset :=
  {| storage_path := Some "uploads/logo-1.png";
     mime_type := Some "image/png";
     filename := Some "new-name" |}.

Definition example_env : Env :=
  {| getAssetForProxy := fun _ => Ok (Some example_asset);
     getAssetProxyUrl :=
       fun _ => Ok (Some "/a/4M9EJZZtPhcA3iTjadiWkD/new-name.png");
     isAssetOfType :=
       fun mime _ => match mime with
                     | Some m => String.prefix "image/" m
                     | None => false
                     end;
     ASSET_CATEGORIES_IMAGES := "images";
     getSupabaseAdmin :=
       Ok (Some {| getPublicUrl :=
                     fun bucket path =>
                       "https://store.example/" ++ bucket ++ "/" ++ path |});
     STORAGE_BUCKET := "assets";
     fetch := fun _ => Ok {| ok := true;
                            arrayBuffer := [Byte.x89; Byte.x50; Byte.x4e] |};
     new_URL := fun path base =>
                  Ok {| origin := base; pathname := path;
                        search := ""; fragment := "" |};
     toBuffer := fun p => Ok (input p) |}.

(** The same world with a document in place of the image. *)
Definition example_document : Asset :=
  {| storage_path := Some "uploads/terms.pdf";
     mime_type := Some "application/pdf";
     filename := Some "terms" |}.

Definition example_documents : Env :=
  {| getAssetForProxy := fun _ => Ok (Some example_document);
     getAssetProxyUrl := fun _ => Ok None;
     isAssetOfType := isAssetOfType example_env;
     ASSET_CATEGORIES_IMAGES := ASSET_CATEGORIES_IMAGES example_env;
     getSupabaseAdmin := getSupabaseAdmin example_env;
     STORAGE_BUCKET := STORAGE_BUCKET example_env;
     fetch := fetch example_env;
     new_URL := new_URL example_env;
     toBuffer := fun _ => Throw (RuntimeError "unsupported image format") |}.

(** The same world with a page whose stored type holds a line feed. *)
Definition example_page : Asset :=
  {| storage_path := Some "uploads/page.html";
     mime_type := Some ("text/html" ++ String (ascii_of_nat 10) "x");
     filename := Some "page" |}.

Definition example_pages : Env :=
  {| getAssetForProxy := fun _ => Ok (Some example_page);
     getAssetProxyUrl := fun _ => Ok None;
     isAssetOfType := isAssetOfType example_env;
     ASSET_CATEGORIES_IMAGES := ASSET_CATEGORIES_IMAGES example_env;
     getSupabaseAdmin := getSupabaseAdmin example_env;
     STORAGE_BUCKET := STORAGE_BUCKET example_env;
     fetch := fetch example_env;
     new_URL := new_URL example_env;
     toBuffer := toBuffer example_env |}.

Definition example_request (name : list string) (query : string)
    (searchParams : URLSearchParams) : Request :=
  {| hash := "4M9EJZZtPhcA3iTjadiWkD";
     name := name;
     url := {| origin := "https://site.example";
               pathname := "/a/4M9EJZZtPhcA3iTjadiWkD/"
                           ++ JS.join "/" name;
               search := query; fragment := "" |};
     searchParams := searchParams |}.

(** ** Strings *)

Lemma append_nil_r (s : string) : s ++ "" = s.
Proof. induction s as [|c s IH]; simpl; [reflexivity | now rewrite IH]. Qed.

Lemma append_assoc (a b c : string) : (a ++ b) ++ c = a ++ (b ++ c).
Proof. induction a as [|x a IH]; simpl; [reflexivity | now rewrite IH]. Qed.

Lemma length_append (a b : string) :
  String.length (a ++ b) = (String.length a + String.length b)%nat.
Proof. induction a as [|x a IH]; simpl; [reflexivity | now rewrite IH]. Qed.

Lemma length_repeat_char (c : ascii) (n : nat) :
  String.length (JS.repeat_char c n) = n.
Proof. induction n as [|n IH]; simpl; [reflexivity | now rewrite IH]. Qed.

Lemma join_empty_cons (x : string) (xs : list string) :
  JS.join "" (x :: xs) = x ++ JS.join "" xs.
Proof.
  unfold JS.join. destruct xs as [|y ys]; simpl.
  - now rewrite append_nil_r.
  - reflexivity.
Qed.

Lemma all_chars_append (p : ascii -> bool) (a b : string) :
  all_chars p (a ++ b) = all_chars p a && all_chars p b.
Proof.
  induction a as [|x a IH]; simpl; [reflexivity|].
  now rewrite IH, andb_assoc.
Qed.

Lemma all_chars_repeat (p : ascii -> bool) (c : ascii) (n : nat) :
  p c = true -> all_chars p (JS.repeat_char c n) = true.
Proof. intros Hc. induction n as [|n IH]; simpl; [reflexivity | now rewrite Hc]. Qed.

Lemma all_chars_impl (p q : ascii -> bool) (s : string) :
  (forall c, p c = true -> q c = true) ->
  all_chars p s = true -> all_chars q s = true.
Proof.
  intros Hpq. induction s as [|c s IH]; simpl; [reflexivity|].
  intros H. apply andb_true_iff in H. destruct H as [Hc Hs].
  now rewrite (Hpq _ Hc), (IH Hs).
Qed.

Lemma indexOf_from_range (c : ascii) (s : string) (i : Z) :
  JS.indexOf_from c s i = -1
  \/ i <= JS.indexOf_from c s i < i + Z.of_nat (String.length s).
Proof.
  revert i. induction s as [|d s IH]; intros i; cbn [JS.indexOf_from String.length].
  - now left.
  - destruct (Ascii.eqb c d); [right; lia|].
    destruct (IH (i + 1)) as [H|H]; [now left | right; lia].
Qed.

Lemma indexOf_range (c : ascii) (s : string) :
  -1 <= JS.indexOf c s < Z.of_nat (String.length s).
Proof.
  unfold JS.indexOf. destruct (indexOf_from_range c s 0) as [H|H]; lia.
Qed.

Lemma indexOf_from_inj (c1 c2 : ascii) (s : string) (i : Z) :
  0 <= i ->
  0 <= JS.indexOf_from c1 s i ->
  JS.indexOf_from c1 s i = JS.indexOf_from c2 s i -> c1 = c2.
Proof.
  revert i. induction s as [|d s IH]; intros i Hi; cbn [JS.indexOf_from]; [lia|].
  pose proof (indexOf_from_range c1 s (i + 1)) as R1.
  pose proof (indexOf_from_range c2 s (i + 1)) as R2.
  destruct (Ascii.eqb c1 d) eqn:A1, (Ascii.eqb c2 d) eqn:A2.
  - apply Ascii.eqb_eq in A1, A2. congruence.
  - lia.
  - lia.
  - apply IH. lia.
Qed.

Lemma indexOf_inj (c1 c2 : ascii) (s : string) :
  0 <= JS.indexOf c1 s -> JS.indexOf c1 s = JS.indexOf c2 s -> c1 = c2.
Proof. apply indexOf_from_inj. lia. Qed.

(** A check on every index below a bound, run once and for all. *)
Lemma forall_below (P : Z -> bool) (n : nat) :
  forallb P (map Z.of_nat (seq 0 n)) = true ->
  forall i, 0 <= i < Z.of_nat n -> P i = true.
Proof.
  intros H i Hi. rewrite forallb_forall in H. apply H.
  apply in_map_iff. exists (Z.to_nat i). split; [lia|].
  apply in_seq. lia.
Qed.

(** From here on the character functions stay folded. *)
Arguments JS.indexOf : simpl never.
Arguments JS.indexOf_from : simpl never.
Arguments JS.digit_value : simpl never.
Arguments hex_index : simpl never.
Arguments is_hex_digit : simpl never.
Arguments JS.is_whitespace : simpl never.
Arguments JS.toLowerChar : simpl never.
Arguments is_digit : simpl never.
Arguments JS.to_Number : simpl never.
Arguments dec_index : simpl never.

(** ** Positional notation, in any radix *)

Section Positional.

Variable dv : ascii -> Z.
Variable radix : Z.
Variable symbols : string.

Hypothesis radix_ge_2 : 2 <= radix.
Hypothesis dv_below : forall c, dv c < radix.
Hypothesis dv_inj : forall c1 c2, 0 <= dv c1 -> dv c1 = dv c2 -> c1 = c2.
Hypothesis symbol_at : forall i, 0 <= i < radix ->
  exists c, JS.char_at symbols i = String c "" /\ dv c = i.

Lemma accumulate_valid (s : string) (acc : Z) :
  all_chars (fun c => 0 <=? dv c) s = true ->
  exists v, accumulate dv radix s acc = Some v.
Proof.
  revert acc. induction s as [|c s IH]; intros acc H; simpl in *.
  - now exists acc.
  - apply andb_true_iff in H. destruct H as [Hc Hs].
    apply Z.leb_le in Hc.
    destruct (dv c <? 0) eqn:E; [apply Z.ltb_lt in E; lia|].
    now apply IH.
Qed.

Lemma accumulate_bounds (s : string) (acc v : Z) :
  0 <= acc ->
  accumulate dv radix s acc = Some v ->
  acc * radix ^ Z.of_nat (String.length s) <= v
  < (acc + 1) * radix ^ Z.of_nat (String.length s).
Proof.
  revert acc. induction s as [|c s IH]; intros acc Hacc H.
  - simpl in *. injection H as <-. lia.
  - simpl in H. destruct (dv c <? 0) eqn:E; [discriminate|].
    apply Z.ltb_ge in E. pose proof (dv_below c) as Hb.
    apply IH in H; [|nia].
    simpl String.length. rewrite Nat2Z.inj_succ, Z.pow_succ_r by lia.
    assert (0 < radix ^ Z.of_nat (String.length s)) by (apply Z.pow_pos_nonneg; lia).
    nia.
Qed.

Lemma accumulate_inj (s1 s2 : string) (acc v : Z) :
  0 <= acc ->
  String.length s1 = String.length s2 ->
  accumulate dv radix s1 acc = Some v ->
  accumulate dv radix s2 acc = Some v ->
  s1 = s2.
Proof.
  revert s2 acc. induction s1 as [|c1 s1 IH]; intros [|c2 s2] acc Hacc Hlen H1 H2;
    try discriminate; [reflexivity|].
  simpl in H1, H2. injection Hlen as Hlen.
  destruct (dv c1 <? 0) eqn:E1; [discriminate|].
  destruct (dv c2 <? 0) eqn:E2; [discriminate|].
  apply Z.ltb_ge in E1, E2.
  assert (0 <= acc * radix + dv c1) as P1 by nia.
  assert (0 <= acc * radix + dv c2) as P2 by nia.
  pose proof (accumulate_bounds _ _ _ P1 H1) as B1.
  pose proof (accumulate_bounds _ _ _ P2 H2) as B2.
  rewrite Hlen in B1.
  assert (0 < radix ^ Z.of_nat (String.length s2)) by (apply Z.pow_pos_nonneg; lia).
  assert (dv c1 = dv c2) as Hd by nia.
  rewrite (dv_inj c1 c2 E1 Hd) in *.
  f_equal. eapply IH; [| exact Hlen | exact H1 | exact H2]. nia.
Qed.

Lemma digits_loop_value (fuel : nat) (n : Z) (chars : list string) :
  0 <= n < 2 ^ Z.of_nat fuel ->
  accumulate dv radix (JS.join "" (JS.digits_loop symbols radix fuel n chars)) 0
  = accumulate dv radix (JS.join "" chars) n.
Proof.
  revert n chars. induction fuel as [|fuel IH]; intros n chars Hn.
  - simpl in *. now replace n with 0 by lia.
  - cbn [JS.digits_loop]. destruct (0 <? n) eqn:E.
    + apply Z.ltb_lt in E.
      rewrite Z.quot_div_nonneg, Z.rem_mod_nonneg by lia.
      rewrite Nat2Z.inj_succ, Z.pow_succ_r in Hn by lia.
      assert (0 <= n mod radix < radix) as Hm by (apply Z.mod_pos_bound; lia).
      assert (0 <= n / radix) as Hq by (apply Z.div_pos; lia).
      assert (n / radix <= n / 2) as Hq2
        by (apply Z.div_le_compat_l; lia).
      assert (n / 2 < 2 ^ Z.of_nat fuel) as Hq3
        by (apply Z.div_lt_upper_bound; lia).
      rewrite IH by lia.
      destruct (symbol_at _ Hm) as (c & Hc & Hv).
      rewrite join_empty_cons, Hc. simpl.
      destruct (dv c <? 0) eqn:F; [apply Z.ltb_lt in F; lia|].
      f_equal. rewrite Hv. rewrite (Z.div_mod n radix) at 3 by lia. lia.
    + apply Z.ltb_ge in E. now replace n with 0 by lia.
Qed.

Lemma digits_loop_length (fuel : nat) (n : Z) (k : nat) (chars : list string) :
  0 <= n < radix ^ Z.of_nat k ->
  (String.length (JS.join "" (JS.digits_loop symbols radix fuel n chars))
   <= k + String.length (JS.join "" chars))%nat.
Proof.
  revert n k chars. induction fuel as [|fuel IH]; intros n k chars Hn.
  - simpl. lia.
  - cbn [JS.digits_loop]. destruct (0 <? n) eqn:E; [|lia].
    apply Z.ltb_lt in E.
    destruct k as [|k]; [simpl in Hn; lia|].
    rewrite Z.quot_div_nonneg, Z.rem_mod_nonneg by lia.
    rewrite Nat2Z.inj_succ, Z.pow_succ_r in Hn by lia.
    assert (0 <= n mod radix < radix) as Hm by (apply Z.mod_pos_bound; lia).
    assert (0 <= n / radix) as Hq by (apply Z.div_pos; lia).
    assert (n / radix < radix ^ Z.of_nat k) as Hq2
      by (apply Z.div_lt_upper_bound; lia).
    specialize (IH (n / radix) k
                  (JS.char_at symbols (n mod radix) :: chars) (conj Hq Hq2)).
    destruct (symbol_at _ Hm) as (c & Hc & _).
    rewrite join_empty_cons, Hc in IH.
    cbn [append String.length] in IH. rewrite Hc. lia.
Qed.

Lemma digits_loop_valid (fuel : nat) (n : Z) (chars : list string) :
  all_chars (fun c => 0 <=? dv c) (JS.join "" chars) = true ->
  all_chars (fun c => 0 <=? dv c)
    (JS.join "" (JS.digits_loop symbols radix fuel n chars)) = true.
Proof.
  revert n chars. induction fuel as [|fuel IH]; intros n chars H.
  - exact H.
  - cbn [JS.digits_loop]. destruct (0 <? n) eqn:E; [|exact H].
    apply Z.ltb_lt in E. apply IH.
    rewrite Z.rem_mod_nonneg by lia.
    assert (0 <= n mod radix < radix) as Hm by (apply Z.mod_pos_bound; lia).
    destruct (symbol_at _ Hm) as (c & Hc & Hv).
    rewrite join_empty_cons, Hc. simpl. rewrite H, Hv.
    now replace (0 <=? n mod radix) with true by (symmetry; apply Z.leb_le; lia).
Qed.

Lemma loop_fuel_enough (n : Z) :
  0 <= n -> n < 2 ^ Z.of_nat (JS.loop_fuel n).
Proof.
  intros Hn. unfold JS.loop_fuel.
  rewrite Nat2Z.inj_succ, Z2Nat.id by apply Z.log2_nonneg.
  destruct (Z.eq_dec n 0) as [->|Hp]; [reflexivity|].
  apply Z.log2_spec. lia.
Qed.

Local Abbreviation written := (written symbols radix).

Lemma written_value (n : Z) :
  0 <= n -> accumulate dv radix (written n) 0 = Some n.
Proof.
  intros Hn. unfold written, JS.digits_of.
  rewrite digits_loop_value by (split; [lia | now apply loop_fuel_enough]).
  reflexivity.
Qed.

Lemma written_length (n : Z) (k : nat) :
  0 <= n < radix ^ Z.of_nat k -> (String.length (written n) <= k)%nat.
Proof.
  intros Hn. unfold written, JS.digits_of.
  pose proof (digits_loop_length (JS.loop_fuel n) n k [] Hn) as H.
  change (String.length (JS.join "" [])) with 0%nat in H. lia.
Qed.

Lemma written_valid (n : Z) :
  all_chars (fun c => 0 <=? dv c) (written n) = true.
Proof. unfold written, JS.digits_of. now apply digits_loop_valid. Qed.

Variable zero : ascii.
Hypothesis dv_zero : dv zero = 0.

Lemma accumulate_zeros (k : nat) (s : string) :
  accumulate dv radix (JS.repeat_char zero k ++ s) 0 = accumulate dv radix s 0.
Proof.
  induction k as [|k IH]; simpl; [reflexivity|].
  rewrite dv_zero. simpl. exact IH.
Qed.

Lemma padded_value (n : Z) (k : nat) :
  0 <= n ->
  accumulate dv radix (JS.padStart (written n) k zero) 0 = Some n.
Proof.
  intros Hn. unfold JS.padStart. rewrite accumulate_zeros.
  now apply written_value.
Qed.

Lemma padded_length (n : Z) (k : nat) :
  0 <= n < radix ^ Z.of_nat k ->
  String.length (JS.padStart (written n) k zero) = k.
Proof.
  intros Hn. pose proof (written_length n k Hn).
  unfold JS.padStart. rewrite length_append, length_repeat_char. lia.
Qed.

Lemma padded_valid (n : Z) (k : nat) :
  all_chars (fun c => 0 <=? dv c) (JS.padStart (written n) k zero) = true.
Proof.
  unfold JS.padStart. rewrite all_chars_append, written_valid, andb_true_r.
  apply all_chars_repeat. now rewrite dv_zero.
Qed.

(** Writing the value of a string of digits, padded to its length, gives
    the string back. *)
Lemma padded_written (s : string) (v : Z) :
  accumulate dv radix s 0 = Some v ->
  JS.padStart (written v) (String.length s) zero = s.
Proof.
  intros Hs.
  pose proof (accumulate_bounds s 0 v ltac:(lia) Hs) as B.
  assert (0 <= v < radix ^ Z.of_nat (String.length s)) as Hv by lia.
  eapply accumulate_inj with (acc := 0); [lia | | | exact Hs].
  - now apply padded_length.
  - apply padded_value. lia.
Qed.

(** The loop does the same with any fuel that is enough. *)
Lemma digits_loop_fuel (f f' : nat) (n : Z) (chars : list string) :
  0 <= n < 2 ^ Z.of_nat f ->
  n < 2 ^ Z.of_nat f' ->
  JS.digits_loop symbols radix f n chars
  = JS.digits_loop symbols radix f' n chars.
Proof.
  revert f' n chars. induction f as [|f IH]; intros f' n chars Hn Hn'.
  - cbn [Z.of_nat Z.pow] in Hn. replace n with 0 by lia.
    destruct f'; reflexivity.
  - cbn [JS.digits_loop]. destruct (0 <? n) eqn:E.
    + apply Z.ltb_lt in E.
      destruct f' as [|f']; [cbn [Z.of_nat Z.pow] in Hn'; lia|].
      cbn [JS.digits_loop].
      replace (0 <? n) with true by (symmetry; now apply Z.ltb_lt).
      rewrite Nat2Z.inj_succ, Z.pow_succ_r in Hn, Hn' by lia.
      rewrite Z.quot_div_nonneg by lia.
      assert (0 <= n / radix) by (apply Z.div_pos; lia).
      assert (n / radix <= n / 2) by (apply Z.div_le_compat_l; lia).
      assert (n / 2 < 2 ^ Z.of_nat f) by (apply Z.div_lt_upper_bound; lia).
      assert (n / 2 < 2 ^ Z.of_nat f') by (apply Z.div_lt_upper_bound; lia).
      apply IH; lia.
    + apply Z.ltb_ge in E. replace n with 0 by lia.
      destruct f'; reflexivity.
Qed.

(** What is written in front of [chars] does not depend on [chars]. *)
Lemma digits_loop_front (f : nat) (n : Z) (chars : list string) :
  JS.join "" (JS.digits_loop symbols radix f n chars)
  = JS.join "" (JS.digits_loop symbols radix f n []) ++ JS.join "" chars.
Proof.
  revert n chars. induction f as [|f IH]; intros n chars.
  - reflexivity.
  - cbn [JS.digits_loop]. destruct (0 <? n); [|reflexivity].
    rewrite (IH _ (_ :: chars)), (IH _ [_]).
    rewrite !join_empty_cons.
    change (JS.join "" []) with "". rewrite append_nil_r.
    now rewrite append_assoc.
Qed.

(** The last digit is the remainder, the digits before it are those of
    the quotient. *)
Lemma written_step (n : Z) :
  0 < n ->
  written n = written (n / radix) ++ JS.char_at symbols (n mod radix).
Proof.
  intros Hn. unfold written, JS.digits_of.
  pose proof (loop_fuel_enough n ltac:(lia)) as Hf.
  pose proof (loop_fuel_enough (n / radix)) as Hg.
  set (g := JS.loop_fuel (n / radix)) in *.
  unfold JS.loop_fuel in *. cbn [JS.digits_loop].
  replace (0 <? n) with true by (symmetry; now apply Z.ltb_lt).
  rewrite Z.quot_div_nonneg, Z.rem_mod_nonneg by lia.
  rewrite Nat2Z.inj_succ, Z.pow_succ_r in Hf by lia.
  assert (0 <= n / radix) by (apply Z.div_pos; lia).
  assert (n / radix <= n / 2) by (apply Z.div_le_compat_l; lia).
  assert (n / 2 < 2 ^ Z.of_nat (Z.to_nat (Z.log2 n)))
    by (apply Z.div_lt_upper_bound; lia).
  rewrite digits_loop_front. rewrite join_empty_cons.
  change (JS.join "" []) with "". rewrite append_nil_r. f_equal. f_equal.
  apply digits_loop_fuel; [lia|]. apply Hg. lia.
Qed.

(** A number of exactly [k] digits is written with [k] characters. *)
Lemma written_length_exact (n : Z) (k : nat) :
  radix ^ Z.of_nat k <= n < radix ^ Z.of_nat (S k) ->
  String.length (written n) = S k.
Proof.
  intros Hn.
  assert (0 < radix ^ Z.of_nat k) by (apply Z.pow_pos_nonneg; lia).
  pose proof (written_length n (S k) ltac:(lia)) as Hle.
  pose proof (accumulate_bounds (written n) 0 n ltac:(lia)
                (written_value n ltac:(lia))) as B.
  destruct (Nat.eq_dec (String.length (written n)) (S k)) as [E|N];
    [exact E|].
  assert (String.length (written n) <= k)%nat as Hk by lia.
  assert (radix ^ Z.of_nat (String.length (written n)) <= radix ^ Z.of_nat k)
    by (apply Z.pow_le_mono_r; lia).
  lia.
Qed.

End Positional.

(** ** The two alphabets *)

(** A property of every character, settled by running it on all 256. *)
Ltac each_char c :=
  destruct c as [[] [] [] [] [] [] [] []]; vm_compute;
  try reflexivity; try discriminate; try (intros; discriminate);
  try (intros; reflexivity).

Lemma base62_below (c : ascii) : base62_index c < 62.
Proof. exact (proj2 (indexOf_range c BASE62_CHARS)). Qed.

Lemma base62_inj (c1 c2 : ascii) :
  0 <= base62_index c1 -> base62_index c1 = base62_index c2 -> c1 = c2.
Proof. apply indexOf_inj. Qed.

Lemma base62_symbol_at (i : Z) :
  0 <= i < 62 ->
  exists c, JS.char_at BASE62_CHARS i = String c "" /\ base62_index c = i.
Proof.
  intros Hi.
  pose (P := fun i => match JS.char_at BASE62_CHARS i with
                      | String c "" => base62_index c =? i
                      | _ => false
                      end).
  assert (P i = true) as H
    by (apply (forall_below P 62); [vm_compute; reflexivity | exact Hi]).
  unfold P in H. destruct (JS.char_at BASE62_CHARS i) as [|c [|]]; try discriminate.
  exists c. split; [reflexivity | now apply Z.eqb_eq].
Qed.

Lemma base62_zero : base62_index "0" = 0.
Proof. reflexivity. Qed.

Lemma hex_below (c : ascii) : hex_index c < 16.
Proof.
  unfold hex_index.
  destruct (JS.indexOf c JS.RADIX_DIGITS <? 16) eqn:E; [now apply Z.ltb_lt | lia].
Qed.

Lemma hex_inj (c1 c2 : ascii) :
  0 <= hex_index c1 -> hex_index c1 = hex_index c2 -> c1 = c2.
Proof.
  unfold hex_index.
  destruct (JS.indexOf c1 JS.RADIX_DIGITS <? 16) eqn:E1; [|lia].
  destruct (JS.indexOf c2 JS.RADIX_DIGITS <? 16) eqn:E2; [|lia].
  apply indexOf_inj.
Qed.

Lemma hex_symbol_at (i : Z) :
  0 <= i < 16 ->
  exists c, JS.char_at JS.RADIX_DIGITS i = String c "" /\ hex_index c = i.
Proof.
  intros Hi.
  pose (P := fun i => match JS.char_at JS.RADIX_DIGITS i with
                      | String c "" => hex_index c =? i
                      | _ => false
                      end).
  assert (P i = true) as H
    by (apply (forall_below P 16); [vm_compute; reflexivity | exact Hi]).
  unfold P in H.
  destruct (JS.char_at JS.RADIX_DIGITS i) as [|c [|]]; try discriminate.
  exists c. split; [reflexivity | now apply Z.eqb_eq].
Qed.

Lemma hex_zero : hex_index "0" = 0.
Proof. reflexivity. Qed.

Lemma digit_value_lower (c : ascii) :
  JS.digit_value 16 c = hex_index (JS.toLowerChar c).
Proof. unfold JS.digit_value, hex_index. cbv zeta. reflexivity. Qed.

Lemma hex_digit_not_space (c : ascii) :
  is_hex_digit c = true -> JS.is_whitespace c = false.
Proof. each_char c. Qed.

Lemma hex_digit_not_dash (c : ascii) :
  is_hex_digit c = true -> Ascii.eqb c "-" = false.
Proof. each_char c. Qed.

Lemma hex_index_digit (c : ascii) :
  (0 <=? hex_index c) = true -> is_hex_digit c = true.
Proof. each_char c. Qed.

Lemma hex_index_lower (c : ascii) :
  (0 <=? hex_index c) = true -> JS.toLowerChar c = c.
Proof. each_char c. Qed.

Lemma hex_digit_lower (c : ascii) :
  is_hex_digit c = true -> (0 <=? hex_index (JS.toLowerChar c)) = true.
Proof. each_char c. Qed.

(** ** The loops of the codec, read positionally *)

Lemma base62_loop_accumulate (s : string) (acc v : Z) :
  accumulate base62_digit 62 s acc = Some v -> base62_loop s acc = Ok v.
Proof.
  revert acc. induction s as [|c s IH]; intros acc H;
    cbn [accumulate base62_loop] in *; cbv zeta.
  - now injection H as ->.
  - destruct (base62_index c <? 0) eqn:E; [discriminate|].
    apply Z.ltb_ge in E.
    destruct (base62_index c =? -1) eqn:F; [apply Z.eqb_eq in F; lia|].
    now apply IH.
Qed.

Lemma base62_loop_throw (s : string) (acc : Z) (c : ascii) :
  first_outside s = Some c ->
  base62_loop s acc = Throw (InvalidBase62Character c).
Proof.
  revert acc. induction s as [|d s IH]; intros acc H;
    cbn [first_outside base62_loop] in *; cbv zeta.
  - discriminate.
  - pose proof (base62_below d) as R.
    assert (-1 <= base62_index d) as R' by apply indexOf_range.
    destruct (base62_index d <? 0) eqn:E.
    + apply Z.ltb_lt in E. injection H as ->.
      now replace (base62_index c) with (-1) by lia.
    + apply Z.ltb_ge in E.
      destruct (base62_index d =? -1) eqn:F; [apply Z.eqb_eq in F; lia|].
      now apply IH.
Qed.

Lemma first_outside_none (s : string) :
  first_outside s = None <-> is_base62 s = true.
Proof.
  unfold is_base62. induction s as [|c s IH]; simpl.
  - tauto.
  - destruct (base62_index c <? 0) eqn:E.
    + apply Z.ltb_lt in E.
      replace (0 <=? base62_index c) with false
        by (symmetry; apply Z.leb_gt; lia).
      simpl. split; discriminate.
    + apply Z.ltb_ge in E.
      replace (0 <=? base62_index c) with true
        by (symmetry; apply Z.leb_le; lia).
      exact IH.
Qed.

Lemma first_outside_some (s : string) (c : ascii) :
  first_outside s = Some c ->
  exists pre post,
    s = pre ++ String c post /\ is_base62 pre = true /\ base62_index c < 0.
Proof.
  unfold is_base62. induction s as [|d s IH]; simpl; [discriminate|].
  destruct (base62_index d <? 0) eqn:E.
  - intros H. injection H as ->. apply Z.ltb_lt in E.
    now exists "", s.
  - intros H. destruct (IH H) as (pre & post & -> & Hpre & Hc).
    exists (String d pre), post. simpl. rewrite Hpre.
    apply Z.ltb_ge in E.
    replace (0 <=? base62_index d) with true
      by (symmetry; apply Z.leb_le; lia).
    auto.
Qed.

Lemma read_digits_hex (s : string) (acc v : Z) (n : nat) :
  accumulate hex_index 16 (JS.toLowerCase s) acc = Some v ->
  JS.read_digits 16 s acc n = (v, (n + String.length s)%nat, "").
Proof.
  revert acc n. induction s as [|c s IH]; intros acc n H.
  - simpl in *. injection H as ->. now rewrite Nat.add_0_r.
  - cbn [JS.toLowerCase accumulate] in H.
    cbn [JS.read_digits String.length]. cbv zeta.
    rewrite digit_value_lower.
    destruct (hex_index (JS.toLowerChar c) <? 0); [discriminate|].
    rewrite (IH _ (S n) H). now rewrite Nat.add_succ_r.
Qed.

Lemma trimEnd_hex (s : string) :
  all_chars is_hex_digit s = true -> JS.trimEnd s = s.
Proof.
  induction s as [|c s IH]; simpl; [reflexivity|].
  intros H. apply andb_true_iff in H. destruct H as [Hc Hs].
  rewrite (IH Hs). destruct s; [|reflexivity].
  now rewrite (hex_digit_not_space c Hc).
Qed.

Lemma lower_hex_valid (s : string) :
  all_chars is_hex_digit s = true ->
  all_chars (fun c => 0 <=? hex_index c) (JS.toLowerCase s) = true.
Proof.
  induction s as [|c s IH]; simpl; [reflexivity|].
  intros H. apply andb_true_iff in H. destruct H as [Hc Hs].
  now rewrite (hex_digit_lower c Hc), (IH Hs).
Qed.

Lemma lower_fixed (s : string) :
  all_chars (fun c => 0 <=? hex_index c) s = true -> JS.toLowerCase s = s.
Proof.
  induction s as [|c s IH]; simpl; [reflexivity|].
  intros H. apply andb_true_iff in H. destruct H as [Hc Hs].
  now rewrite (hex_index_lower c Hc), (IH Hs).
Qed.

Lemma length_toLowerCase (s : string) :
  String.length (JS.toLowerCase s) = String.length s.
Proof. induction s as [|c s IH]; simpl; [reflexivity | now rewrite IH]. Qed.

Lemma BigInt_0x_hex (h : string) (v : Z) :
  h <> "" ->
  all_chars is_hex_digit h = true ->
  accumulate hex_index 16 (JS.toLowerCase h) 0 = Some v ->
  JS.BigInt_0x h = Ok v.
Proof.
  intros Hne Hh Hv. unfold JS.BigInt_0x.
  rewrite (trimEnd_hex h Hh), (read_digits_hex h 0 v 0 Hv).
  destruct h; [contradiction | reflexivity].
Qed.

Lemma toString_16_padded (n : Z) (k : nat) :
  0 <= n -> (0 < k)%nat ->
  JS.padStart (JS.toString n 16) k "0"
  = JS.padStart (written JS.RADIX_DIGITS 16 n) k "0".
Proof.
  intros Hn Hk. unfold JS.toString.
  destruct (n =? 0) eqn:E.
  - apply Z.eqb_eq in E. subst n.
    change (written JS.RADIX_DIGITS 16 0) with "".
    unfold JS.padStart. cbn [String.length].
    destruct k as [|k]; [lia|].
    replace (S k - 1)%nat with k by lia. rewrite Nat.sub_0_r.
    rewrite append_nil_r. clear. induction k as [|k IH]; simpl; [reflexivity|].
    now rewrite IH.
  - destruct (n <? 0) eqn:F; [apply Z.ltb_lt in F; lia | reflexivity].
Qed.

Lemma uuidToBase62_written (uuid : string) :
  uuidToBase62 uuid =
  (num <- JS.BigInt_0x (JS.remove_char "-" uuid) ;;
   Ok (JS.padStart (written BASE62_CHARS 62 num) 22 "0")).
Proof.
  unfold uuidToBase62. cbv zeta.
  destruct (JS.BigInt_0x (JS.remove_char "-" uuid)) as [num|e]; simpl;
    [|reflexivity].
  destruct (num =? 0) eqn:E; [|reflexivity].
  apply Z.eqb_eq in E. now subst num.
Qed.

Lemma base62ToUuid_written (t : string) (v : Z) :
  base62_value t = Some v ->
  base62ToUuid t
  = Ok (dashed (JS.padStart (written JS.RADIX_DIGITS 16 v) 32 "0")).
Proof.
  intros Hv. unfold base62ToUuid.
  rewrite (base62_loop_accumulate t 0 v Hv). cbn [bind]. cbv zeta.
  pose proof (accumulate_bounds base62_digit 62 ltac:(lia) base62_below
                t 0 v ltac:(lia) Hv) as B.
  rewrite toString_16_padded by lia. reflexivity.
Qed.

(** ** The dashed form *)

(** Takes 32 characters off the front of [s], given a lower bound on its
    length. *)
Ltac peel s H :=
  do 32 (destruct s as [|? s];
        [ cbn [String.length] in H; try discriminate H; exfalso; lia
        | cbn [String.length] in H ]).

(** Splits [all_chars p (String c1 (String c2 ...))] into one fact per
    character. *)
Ltac split_all H :=
  cbn [all_chars] in H;
  repeat (let Hc := fresh "Hc" in
          apply andb_true_iff in H; destruct H as [Hc H]).

Ltac use_hex_facts :=
  repeat match goal with
         | Hc : is_hex_digit ?c = true |- context [is_hex_digit ?c] =>
             rewrite Hc
         | Hc : is_hex_digit ?c = true |- context [Ascii.eqb ?c "-"] =>
             rewrite (hex_digit_not_dash c Hc)
         end.

Lemma substring_0_0 (s : string) : substring 0 0 s = "".
Proof. now destruct s. Qed.

Lemma remove_dash_hex (c : ascii) (s : string) :
  is_hex_digit c = true ->
  JS.remove_char "-" (String c s) = String c (JS.remove_char "-" s).
Proof.
  intros Hc. cbn [JS.remove_char]. now rewrite (hex_digit_not_dash c Hc).
Qed.

Lemma remove_dash_dash (s : string) :
  JS.remove_char "-" (String "-" s) = JS.remove_char "-" s.
Proof. reflexivity. Qed.

Ltac remove_dashes :=
  repeat (rewrite remove_dash_dash
          || (rewrite remove_dash_hex by assumption));
  change (JS.remove_char "-" "") with "".

Lemma dashed_shape (hex : string) :
  (32 <= String.length hex)%nat ->
  all_chars is_hex_digit hex = true ->
  is_uuid (dashed hex) = true.
Proof.
  intros Hlen Hhex. peel hex Hlen. split_all Hhex.
  unfold is_uuid, UUID_PATTERN, dashed, JS.join, JS.slice.
  cbn [repeat app String.concat substring Nat.sub append has_shape].
  use_hex_facts. rewrite substring_0_0.
  change (Ascii.eqb "-" "-") with true. reflexivity.
Qed.

Lemma dashed_remove (hex : string) :
  String.length hex = 32%nat ->
  all_chars is_hex_digit hex = true ->
  JS.remove_char "-" (dashed hex) = hex.
Proof.
  intros Hlen Hhex. peel hex Hlen.
  destruct hex; [|discriminate Hlen]. split_all Hhex.
  unfold dashed, JS.join, JS.slice.
  cbn [String.concat substring Nat.sub append].
  remove_dashes. reflexivity.
Qed.

Lemma dashed_lower (hex : string) :
  String.length hex = 32%nat ->
  JS.toLowerCase (dashed hex) = dashed (JS.toLowerCase hex).
Proof.
  intros Hlen. peel hex Hlen. destruct hex; [|discriminate Hlen].
  unfold dashed, JS.join, JS.slice.
  cbn [String.concat substring Nat.sub append JS.toLowerCase].
  reflexivity.
Qed.

(** An identifier is the dashed form of its 32 digits. *)
Lemma uuid_dashed (x : string) :
  is_uuid x = true ->
  String.length (JS.remove_char "-" x) = 32%nat
  /\ all_chars is_hex_digit (JS.remove_char "-" x) = true
  /\ dashed (JS.remove_char "-" x) = x.
Proof.
  unfold is_uuid, UUID_PATTERN. cbn [repeat app]. intros H.
  do 36 (destruct x as [|? x]; [discriminate H|];
         cbn [has_shape] in H;
         let Hc := fresh "Hc" in
         apply andb_true_iff in H; destruct H as [Hc H]).
  destruct x; [|discriminate H]. clear H.
  repeat match goal with
         | Hc : Ascii.eqb ?c "-" = true |- _ =>
             apply Ascii.eqb_eq in Hc; subst c
         end.
  remove_dashes.
  split; [reflexivity|]. split.
  - cbn [all_chars]. use_hex_facts. reflexivity.
  - reflexivity.
Qed.

(** ** The codec *)

Lemma base62_padded_written (t : string) (v : Z) :
  base62_value t = Some v ->
  JS.padStart (written BASE62_CHARS 62 v) (String.length t) "0" = t.
Proof.
  apply (padded_written base62_digit 62 BASE62_CHARS);
    [lia | exact base62_below | exact base62_inj | exact base62_symbol_at
    | exact base62_zero].
Qed.

Lemma base62_padded_value (n : Z) (k : nat) :
  0 <= n -> base62_value (JS.padStart (written BASE62_CHARS 62 n) k "0") = Some n.
Proof.
  apply (padded_value base62_digit 62 BASE62_CHARS);
    [lia | exact base62_symbol_at | exact base62_zero].
Qed.

Lemma base62_padded_length (n : Z) :
  0 <= n < 2 ^ 128 ->
  String.length (JS.padStart (written BASE62_CHARS 62 n) 22 "0") = 22%nat.
Proof.
  intros Hn.
  apply (padded_length base62_digit 62 BASE62_CHARS);
    [lia | exact base62_symbol_at |].
  assert (2 ^ 128 < 62 ^ Z.of_nat 22) by (vm_compute; reflexivity). lia.
Qed.

Lemma hex_padded_written (h : string) (v : Z) :
  accumulate hex_index 16 h 0 = Some v ->
  JS.padStart (written JS.RADIX_DIGITS 16 v) (String.length h) "0" = h.
Proof.
  apply (padded_written hex_index 16 JS.RADIX_DIGITS);
    [lia | exact hex_below | exact hex_inj | exact hex_symbol_at
    | exact hex_zero].
Qed.

Lemma hex_padded_value (n : Z) (k : nat) :
  0 <= n ->
  accumulate hex_index 16 (JS.padStart (written JS.RADIX_DIGITS 16 n) k "0") 0
  = Some n.
Proof.
  apply (padded_value hex_index 16 JS.RADIX_DIGITS);
    [lia | exact hex_symbol_at | exact hex_zero].
Qed.

Lemma hex_padded_length (n : Z) :
  0 <= n < 2 ^ 128 ->
  String.length (JS.padStart (written JS.RADIX_DIGITS 16 n) 32 "0") = 32%nat.
Proof.
  intros Hn.
  apply (padded_length hex_index 16 JS.RADIX_DIGITS);
    [lia | exact hex_symbol_at |].
  assert (2 ^ 128 = 16 ^ Z.of_nat 32) by (vm_compute; reflexivity). lia.
Qed.

Lemma hex_padded_valid (n : Z) (k : nat) :
  all_chars (fun c => 0 <=? hex_index c)
    (JS.padStart (written JS.RADIX_DIGITS 16 n) k "0") = true.
Proof.
  apply (padded_valid hex_index 16 JS.RADIX_DIGITS);
    [lia | exact hex_symbol_at | exact hex_zero].
Qed.

Lemma padStart_length_ge (s : string) (k : nat) (c : ascii) :
  (k <= String.length (JS.padStart s k c))%nat.
Proof.
  unfold JS.padStart. rewrite length_append, length_repeat_char. lia.
Qed.

(** What [BigInt] reads in an identifier: a number below 2^128. *)
Lemma uuid_number (x : string) :
  is_uuid x = true ->
  exists v,
    JS.BigInt_0x (JS.remove_char "-" x) = Ok v
    /\ accumulate hex_index 16 (JS.toLowerCase (JS.remove_char "-" x)) 0 = Some v
    /\ 0 <= v < 2 ^ 128.
Proof.
  intros Hx. destruct (uuid_dashed x Hx) as (Hlen & Hhex & _).
  destruct (accumulate_valid hex_index 16 _ 0 (lower_hex_valid _ Hhex))
    as [v Hv].
  exists v. split; [|split; [exact Hv|]].
  - apply BigInt_0x_hex; [|exact Hhex | exact Hv].
    intros E. rewrite E in Hlen. discriminate Hlen.
  - pose proof (accumulate_bounds hex_index 16 ltac:(lia) hex_below
                  _ 0 v ltac:(lia) Hv) as B.
    rewrite length_toLowerCase, Hlen in B.
    assert (2 ^ 128 = 16 ^ Z.of_nat 32) by (vm_compute; reflexivity). lia.
Qed.

(** C1.  The codec is a bijection between the 128-bit identifiers and the
    22-character tokens that stand for a number below 2^128.  Decoding
    the token of an identifier gives the identifier in lower case, so
    the identifier itself when it is written in lower case; encoding the
    identifier of a 22-character token whose number is below 2^128 gives
    the token. *)
Theorem codec_round_trip :
  (forall x : string,
      is_uuid x = true ->
      (t <- uuidToBase62 x ;; base62ToUuid t) = Ok (JS.toLowerCase x))
  /\ (forall t : string,
         String.length t = 22%nat ->
         is_base62 t = true ->
         in_range t = true ->
         (u <- base62ToUuid t ;; uuidToBase62 u) = Ok t).
Proof.
  split.
  - intros x Hx. destruct (uuid_dashed x Hx) as (Hlen & Hhex & Hd).
    destruct (uuid_number x Hx) as (v & Hbig & Hv & Hrange).
    rewrite uuidToBase62_written, Hbig. cbn [bind].
    rewrite (base62ToUuid_written _ v) by (apply base62_padded_value; lia).
    f_equal.
    transitivity (JS.toLowerCase (dashed (JS.remove_char "-" x)));
      [|now rewrite Hd].
    rewrite dashed_lower by exact Hlen. f_equal.
    rewrite <- (hex_padded_written _ v Hv).
    now rewrite length_toLowerCase, Hlen.
  - intros t Hlen _ Hr. unfold in_range in Hr.
    destruct (base62_value t) as [v|] eqn:Hv; [|discriminate].
    apply Z.ltb_lt in Hr.
    pose proof (accumulate_bounds base62_digit 62 ltac:(lia) base62_below
                  t 0 v ltac:(lia) Hv) as B.
    assert (0 <= v < 2 ^ 128) as Hrange by lia.
    rewrite (base62ToUuid_written t v Hv). cbn [bind].
    set (hex := JS.padStart (written JS.RADIX_DIGITS 16 v) 32 "0").
    assert (String.length hex = 32%nat) as Hhl by now apply hex_padded_length.
    assert (all_chars (fun c => 0 <=? hex_index c) hex = true) as Hhv
      by apply hex_padded_valid.
    assert (all_chars is_hex_digit hex = true) as Hhd
      by (eapply all_chars_impl; [exact hex_index_digit | exact Hhv]).
    rewrite uuidToBase62_written, (dashed_remove hex Hhl Hhd).
    rewrite (BigInt_0x_hex hex v).
    + cbn [bind]. f_equal. rewrite <- Hlen. now apply base62_padded_written.
    + intros E. rewrite E in Hhl. discriminate Hhl.
    + exact Hhd.
    + rewrite (lower_fixed hex Hhv). apply hex_padded_value. lia.
Qed.

Lemma codec_round_trip_witness :
  (t <- uuidToBase62 "8F2A4B1C-7d8e-4f12-b345-6789abcdef01" ;; base62ToUuid t)
  = Ok (JS.toLowerCase "8F2A4B1C-7d8e-4f12-b345-6789abcdef01")
  /\ (u <- base62ToUuid "4M9EJZZtPhcA3iTjadiWkD" ;; uuidToBase62 u)
     = Ok "4M9EJZZtPhcA3iTjadiWkD".
Proof.
  split.
  - apply (proj1 codec_round_trip). vm_compute. reflexivity.
  - apply (proj2 codec_round_trip); vm_compute; reflexivity.
Defined.

(** C1 as the specification words it fails: a token of 22 symbols can
    stand for a number of more than 128 bits, whose last hex digit
    [base62ToUuid] drops. *)
Lemma codec_round_trip_every_token_fails :
  ~ (forall t : string,
        String.length t = 22%nat ->
        is_base62 t = true ->
        (u <- base62ToUuid t ;; uuidToBase62 u) = Ok t).
Proof.
  intros H.
  specialize (H "zzzzzzzzzzzzzzzzzzzzzz" eq_refl ltac:(vm_compute; reflexivity)).
  vm_compute in H. discriminate H.
Qed.

(** C6.  [base62ToUuid] throws exactly when a character of its input is
    none of the 62 symbols, and what it throws names the first such
    character; on symbols only, whatever their number, it returns a
    dashed hex identifier. *)
Theorem base62ToUuid_outcome (b62 : string) :
  (is_base62 b62 = true ->
     exists u, base62ToUuid b62 = Ok u /\ is_uuid u = true)
  /\ (is_base62 b62 = false ->
        exists pre c post,
          b62 = pre ++ String c post
          /\ is_base62 pre = true
          /\ base62_index c = -1
          /\ base62ToUuid b62 = Throw (InvalidBase62Character c)).
Proof.
  split.
  - intros Hs.
    destruct (accumulate_valid base62_digit 62 b62 0 Hs) as [v Hv].
    rewrite (base62ToUuid_written b62 v Hv). eexists. split; [reflexivity|].
    apply dashed_shape; [apply padStart_length_ge|].
    eapply all_chars_impl; [exact hex_index_digit | apply hex_padded_valid].
  - intros Hs. destruct (first_outside b62) as [c|] eqn:F.
    + destruct (first_outside_some b62 c F) as (pre & post & E & Hpre & Hc).
      exists pre, c, post. repeat split; try assumption.
      * pose proof (indexOf_range c BASE62_CHARS). lia.
      * unfold base62ToUuid. now rewrite (base62_loop_throw b62 0 c F).
    + apply first_outside_none in F. congruence.
Qed.

Lemma base62ToUuid_outcome_witness :
  (exists u, base62ToUuid "7N42dgm5tFLK9N8MT7fHC8zz" = Ok u /\ is_uuid u = true)
  /\ (exists pre c post,
         "ab-c_d" = pre ++ String c post
         /\ is_base62 pre = true
         /\ base62_index c = -1
         /\ base62ToUuid "ab-c_d" = Throw (InvalidBase62Character c)).
Proof.
  split.
  - apply (proj1 (base62ToUuid_outcome _)). vm_compute. reflexivity.
  - apply (proj2 (base62ToUuid_outcome _)). vm_compute. reflexivity.
Defined.

(** C7.  [uuidToBase62] returns 22 characters for every 128-bit
    identifier, and 22 zero symbols for the all-zero identifier. *)
Theorem uuidToBase62_length (x : string) :
  is_uuid x = true ->
  (exists t, uuidToBase62 x = Ok t /\ String.length t = 22%nat)
  /\ uuidToBase62 ZERO_UUID = Ok "0000000000000000000000".
Proof.
  intros Hx. split; [|vm_compute; reflexivity].
  destruct (uuid_number x Hx) as (v & Hbig & _ & Hrange).
  rewrite uuidToBase62_written, Hbig. cbn [bind].
  eexists. split; [reflexivity|]. now apply base62_padded_length.
Qed.

Lemma uuidToBase62_length_witness :
  (exists t, uuidToBase62 "ffffffff-ffff-ffff-ffff-ffffffffffff" = Ok t
             /\ String.length t = 22%nat)
  /\ uuidToBase62 ZERO_UUID = Ok "0000000000000000000000".
Proof.
  apply (uuidToBase62_length "ffffffff-ffff-ffff-ffff-ffffffffffff").
  vm_compute. reflexivity.
Defined.

(** ** [mimeToExtension] *)

Lemma own_property_in (obj : list (string * string)) (key v : string) :
  own_property obj key = Some v -> In v (map snd obj).
Proof.
  induction obj as [|[k w] obj IH]; cbn [own_property map snd]; [discriminate|].
  destruct (String.eqb k key).
  - intros H. injection H as ->. now left.
  - intros H. right. now apply IH.
Qed.


(** The pieces of a split end with a piece free of the separator, which
    is the whole string or what follows its last separator. *)
Lemma split_last (c : ascii) (s : string) :
  exists init seg,
    JS.split c s = (init ++ [seg])%list
    /\ no_char c seg = true
    /\ (init = [] -> s = seg)
    /\ (init <> [] -> exists pre, s = pre ++ String c seg).
Proof.
  induction s as [|d s (init & seg & Hsplit & Hno & Hone & Hmany)].
  - exists [], "". repeat split; try reflexivity. intros H. now contradiction H.
  - cbn [JS.split]. rewrite Hsplit. destruct (Ascii.eqb d c) eqn:E.
    + apply Ascii.eqb_eq in E. subst d.
      exists ("" :: init), seg. repeat split; try assumption; [discriminate|].
      intros _. destruct init as [|i init].
      * exists "". now rewrite (Hone eq_refl).
      * destruct Hmany as [pre ->]; [discriminate|]. now exists (String c pre).
    + destruct init as [|i init]; cbn [app].
      * exists [], (String d seg). cbn [no_char]. rewrite E, Hno.
        repeat split; try reflexivity.
        -- intros _. now rewrite (Hone eq_refl).
        -- intros H. now contradiction H.
      * exists (String d i :: init), seg.
        repeat split; try assumption; [discriminate|].
        intros _. destruct Hmany as [pre ->]; [discriminate|].
        now exists (String d pre).
Qed.

Lemma pop_last (init : list string) (seg : string) :
  pop (init ++ [seg])%list = JsString seg.
Proof. unfold pop. now rewrite rev_app_distr. Qed.



(** Every string with a slash in it names nothing inherited. *)
Lemma slash_not_inherited (mimeType : string) :
  no_char "/" mimeType = false -> not_inherited mimeType = true.
Proof.
  intros H. unfold not_inherited. apply negb_true_iff.
  apply not_true_is_false. intros E. apply existsb_exists in E.
  destruct E as (k & Hin & Hk). apply String.eqb_eq in Hk. subst k.
  assert (forallb (no_char "/") OBJECT_PROTOTYPE_KEYS = true) as A
    by (vm_compute; reflexivity).
  rewrite forallb_forall in A. rewrite (A _ Hin) in H. discriminate H.
Qed.

(** What the code returns for a name that is inherited. *)
Example mimeToExtension_constructor :
  mimeToExtension "constructor" = JsInherited "constructor".
Proof. vm_compute. reflexivity. Qed.

(** ** [parseInt] and the transform parameters *)

Lemma digit_not_space (c : ascii) :
  is_digit c = true -> JS.is_whitespace c = false.
Proof. each_char c. Qed.

Lemma digit_value_digit (c : ascii) :
  is_digit c = true -> JS.digit_value 10 c = Z.of_N (N_of_ascii c) - 48.
Proof. each_char c. Qed.

Lemma digit_value_nonneg (c : ascii) :
  is_digit c = true -> (JS.digit_value 10 c <? 0) = false.
Proof. each_char c. Qed.

Lemma digit_value_other (c : ascii) :
  is_digit c = false -> (JS.digit_value 10 c <? 0) = true.
Proof. each_char c. Qed.

Lemma read_digits_decimal (ds rest : string) (acc : Z) (n : nat) :
  all_chars is_digit ds = true ->
  starts_with_digit rest = false ->
  JS.read_digits 10 (ds ++ rest) acc n
  = (decimal ds acc, (n + String.length ds)%nat, rest).
Proof.
  intros Hds Hrest. revert acc n Hds.
  induction ds as [|c ds IH]; intros acc n Hds.
  - cbn [append decimal String.length]. rewrite Nat.add_0_r.
    destruct rest as [|c r]; [reflexivity|].
    cbn [starts_with_digit] in Hrest. cbn [JS.read_digits]. cbv zeta.
    now rewrite (digit_value_other c Hrest).
  - cbn [all_chars] in Hds. apply andb_true_iff in Hds. destruct Hds as [Hc Hds].
    cbn [append decimal String.length JS.read_digits]. cbv zeta.
    rewrite (digit_value_nonneg c Hc), (digit_value_digit c Hc).
    rewrite (IH _ (S n) Hds). now rewrite Nat.add_succ_r.
Qed.

(** [parseInt] reads a positive decimal prefix and stops at what is no
    digit. *)
Lemma parseInt_prefix (ds rest : string) :
  all_chars is_digit ds = true ->
  0 < decimal ds 0 ->
  starts_with_digit rest = false ->
  JS.parseInt (ds ++ rest) = Some (decimal ds 0).
Proof.
  intros Hds Hpos Hrest.
  pose proof (read_digits_decimal ds rest 0 0 Hds Hrest) as R.
  destruct ds as [|d ds]; [cbn in Hpos; lia|].
  cbn [all_chars] in Hds. apply andb_true_iff in Hds. destruct Hds as [Hd Hds].
  assert (JS.trimStart (String d ds ++ rest) = String d ds ++ rest) as T
    by (cbn [append JS.trimStart]; now rewrite (digit_not_space d Hd)).
  unfold JS.parseInt. rewrite T. clear T.
  assert (d = "0"%char \/ (Ascii.eqb d "0" = false /\ Ascii.eqb d "-" = false
                          /\ Ascii.eqb d "+" = false)) as [->|(N0 & Nm & Np)].
  { clear -Hd. revert Hd. each_char d; tauto. }
  - destruct ds as [|e ds]; [cbn in Hpos; lia|].
    cbn [all_chars] in Hds. apply andb_true_iff in Hds. destruct Hds as [He _].
    assert (Ascii.eqb e "x" = false /\ Ascii.eqb e "X" = false) as [Nx NX]
      by (clear -He; revert He; each_char e; tauto).
    cbn [append] in *.
    destruct e as [[] [] [] [] [] [] [] []]; try discriminate Nx;
      try discriminate NX; cbv beta iota zeta;
      rewrite R; cbn [String.length Nat.add]; now rewrite Z.mul_1_l.
  - cbn [append] in *.
    destruct d as [[] [] [] [] [] [] [] []]; try discriminate N0;
      try discriminate Nm; try discriminate Np; cbv beta iota zeta;
      rewrite R; cbn [String.length Nat.add]; now rewrite Z.mul_1_l.
Qed.

(** What rounding to a [Number] keeps. *)
Lemma to_Number_rounded (z : Z) :
  2 ^ 53 <= Z.abs z ->
  exists m, JS.to_Number z = Z.sgn z * m /\ 2 ^ 53 <= m.
Proof.
  intros Ha. unfold JS.to_Number. cbv zeta.
  destruct (Z.abs z <? 2 ^ 53) eqn:E; [apply Z.ltb_lt in E; lia|].
  eexists. split; [reflexivity|].
  set (a := Z.abs z) in *. set (e := Z.log2 a - 52).
  assert (0 < a) as Hpos by (assert (0 < 2 ^ 53) by reflexivity; lia).
  pose proof (Z.log2_spec a Hpos) as [Hlo _].
  assert (53 <= Z.log2 a) as Hl.
  { apply Z.log2_le_pow2; [exact Hpos | exact Ha]. }
  assert (1 <= e) as He by (unfold e; lia).
  assert (0 < 2 ^ e) as Hp by (apply Z.pow_pos_nonneg; lia).
  assert (2 ^ Z.log2 a = 2 ^ 52 * 2 ^ e) as Hsplit.
  { unfold e. rewrite <- Z.pow_add_r by lia. f_equal. lia. }
  assert (2 ^ 52 <= a / 2 ^ e) as Hq.
  { apply Z.div_le_lower_bound; [exact Hp|]. lia. }
  assert (2 <= 2 ^ e) as H2.
  { change 2 with (2 ^ 1) at 1. apply Z.pow_le_mono_r; lia. }
  assert (2 ^ 53 = 2 ^ 52 * 2) as H53 by reflexivity.
  assert (2 ^ 53 <= JS.INFINITY) as Hinf by (vm_compute; discriminate).
  assert (0 < 2 ^ 52) as P52 by reflexivity.
  apply Z.min_glb; [|exact Hinf].
  destruct (2 * (a mod 2 ^ e) <? 2 ^ e);
    [|destruct (2 * (a mod 2 ^ e) =? 2 ^ e);
      [destruct (Z.even (a / 2 ^ e))|]]; nia.
Qed.

Lemma to_Number_exact (z : Z) :
  Z.abs z <= 2 ^ 53 -> JS.to_Number z = z.
Proof.
  intros H. destruct (Z.eq_dec (Z.abs z) (2 ^ 53)) as [E|N].
  - assert (z = 2 ^ 53 \/ z = - 2 ^ 53) as [-> | ->] by lia;
      vm_compute; reflexivity.
  - unfold JS.to_Number. cbv zeta.
    destruct (Z.abs z <? 2 ^ 53) eqn:E; [reflexivity|].
    apply Z.ltb_ge in E. lia.
Qed.

Lemma to_Number_positive (z : Z) : 0 < z -> 0 < JS.to_Number z.
Proof.
  intros Hz. destruct (Z_lt_le_dec (Z.abs z) (2 ^ 53)) as [S|L].
  - rewrite to_Number_exact by lia. exact Hz.
  - destruct (to_Number_rounded z L) as (m & -> & Hm).
    assert (0 < 2 ^ 53) by reflexivity. rewrite Z.sgn_pos by exact Hz. lia.
Qed.

Lemma to_Number_not_positive (z : Z) : z <= 0 -> JS.to_Number z <= 0.
Proof.
  intros Hz. destruct (Z_lt_le_dec (Z.abs z) (2 ^ 53)) as [S|L].
  - rewrite to_Number_exact by lia. exact Hz.
  - destruct (to_Number_rounded z L) as (m & -> & Hm).
    assert (0 < 2 ^ 53) by reflexivity.
    assert (z < 0) by lia. rewrite Z.sgn_neg by assumption. lia.
Qed.

Lemma to_Number_min (z : Z) :
  0 < z -> Z.min (JS.to_Number z) 100 = Z.min z 100.
Proof.
  intros Hz. destruct (Z_lt_le_dec (Z.abs z) (2 ^ 53)) as [S|L].
  - now rewrite to_Number_exact by lia.
  - destruct (to_Number_rounded z L) as (m & -> & Hm).
    assert (100 < 2 ^ 53) by reflexivity.
    rewrite Z.sgn_pos by exact Hz. lia.
Qed.

(** Rounding does not change what is positive. *)
Lemma gt0_to_Number (x : option Z) :
  gt0 (option_map JS.to_Number x) = gt0 x.
Proof.
  destruct x as [z|]; [|reflexivity]. cbn [option_map gt0].
  destruct (0 <? z) eqn:E.
  - apply Z.ltb_lt in E. apply Z.ltb_lt. now apply to_Number_positive.
  - apply Z.ltb_ge in E. apply Z.ltb_ge. now apply to_Number_not_positive.
Qed.

Lemma get_delete_same (sp : URLSearchParams) (k : string) :
  get (delete sp k) k = None.
Proof.
  induction sp as [|[k' v] sp IH]; cbn [delete get]; [reflexivity|].
  destruct (String.eqb k' k) eqn:E; [exact IH|].
  cbn [get]. now rewrite E.
Qed.

Lemma get_delete_other (sp : URLSearchParams) (k k' : string) :
  String.eqb k k' = false -> get (delete sp k) k' = get sp k'.
Proof.
  intros N. induction sp as [|[k0 v] sp IH]; cbn [delete get]; [reflexivity|].
  destruct (String.eqb k0 k) eqn:E.
  - apply String.eqb_eq in E. subst k0. now rewrite N.
  - cbn [get]. now rewrite IH.
Qed.

(** The parser looks at the three numbers only. *)
Lemma parseTransformParams_params (sp : URLSearchParams) :
  parseTransformParams sp =
  (let w := param sp "width" in
   let h := param sp "height" in
   let q := param sp "quality" in
   if negb (gt0 w || gt0 h || gt0 q) then None
   else Some {| width := if gt0 w then w else None;
                height := if gt0 h then h else None;
                quality := match q with
                           | Some q => if 0 <? q then Z.min q 100 else 80
                           | None => 80
                           end |}).
Proof. reflexivity. Qed.

Lemma param_delete_same (sp : URLSearchParams) (k : string) :
  param (delete sp k) k = None.
Proof. unfold param. now rewrite get_delete_same. Qed.

Lemma param_delete_other (sp : URLSearchParams) (k k' : string) :
  String.eqb k k' = false -> param (delete sp k) k' = param sp k'.
Proof. intros N. unfold param. now rewrite get_delete_other. Qed.

Lemma param_of_value (sp : URLSearchParams) (k v : string) :
  get sp k = Some v -> param sp k = JS.parseInt_Number v.
Proof. intros H. unfold param. now rewrite H. Qed.

Lemma param_of_null (sp : URLSearchParams) (k : string) :
  get sp k = None -> param sp k = None.
Proof. intros H. unfold param. now rewrite H. Qed.

(** A value that [parseInt] does not read as a positive number counts
    for nothing. *)
Lemma parseTransformParams_delete (sp : URLSearchParams) (k : string) :
  In k ["width"; "height"; "quality"] ->
  gt0 (param sp k) = false ->
  parseTransformParams sp = parseTransformParams (delete sp k).
Proof.
  intros Hk Hv. rewrite !parseTransformParams_params. cbv zeta.
  destruct Hk as [<-|[<-|[<-|[]]]];
    rewrite param_delete_same, !param_delete_other by reflexivity;
    cbn [gt0]; rewrite ?Hv.
  - reflexivity.
  - reflexivity.
  - destruct (param sp "quality") as [q|]; [|reflexivity].
    cbn [gt0] in Hv. now rewrite Hv.
Qed.

(** C4.  The parser never throws: it is a function to the transform or
    [null].  It reads 0, -5 and abc under width or height as no value at
    all, brings a quality of 150 down to 100, reads a quality of 0 as no
    value, takes 80 for the quality when none is read and a dimension
    is, and returns [null] when the three parameters are missing. *)
Theorem parseTransformParams_cases (sp : URLSearchParams) :
  (forall v, In v ["0"; "-5"; "abc"] ->
     get sp "width" = Some v ->
     parseTransformParams sp = parseTransformParams (delete sp "width"))
  /\ (forall v, In v ["0"; "-5"; "abc"] ->
        get sp "height" = Some v ->
        parseTransformParams sp = parseTransformParams (delete sp "height"))
  /\ (get sp "quality" = Some "150" ->
        exists t, parseTransformParams sp = Some t /\ quality t = 100)
  /\ (get sp "quality" = Some "0" ->
        gt0 (param sp "quality") = false
        /\ parseTransformParams sp = parseTransformParams (delete sp "quality"))
  /\ (gt0 (param sp "quality") = false ->
        gt0 (param sp "width") || gt0 (param sp "height") = true ->
        exists t, parseTransformParams sp = Some t /\ quality t = 80)
  /\ (get sp "width" = None ->
        get sp "height" = None ->
        get sp "quality" = None ->
        parseTransformParams sp = None).
Proof.
  assert (forall k v, In k ["width"; "height"; "quality"] ->
            In v ["0"; "-5"; "abc"] -> get sp k = Some v ->
            gt0 (param sp k) = false) as Habsent.
  { intros k v _ Hv Hg. rewrite (param_of_value sp k v Hg).
    destruct Hv as [<-|[<-|[<-|[]]]]; vm_compute; reflexivity. }
  repeat split.
  - intros v Hv Hg. apply parseTransformParams_delete; [cbn; tauto|].
    apply (Habsent "width" v); [cbn; tauto | exact Hv | exact Hg].
  - intros v Hv Hg. apply parseTransformParams_delete; [cbn; tauto|].
    apply (Habsent "height" v); [cbn; tauto | exact Hv | exact Hg].
  - intros Hq. rewrite parseTransformParams_params. cbv zeta.
    rewrite (param_of_value sp "quality" "150" Hq).
    change (JS.parseInt_Number "150") with (Some 150). cbn [gt0].
    change (0 <? 150) with true. rewrite !orb_true_r. cbn [negb].
    eexists. split; reflexivity.
  - apply (Habsent "quality" "0"); cbn; tauto.
  - apply parseTransformParams_delete; [cbn; tauto|].
    apply (Habsent "quality" "0"); cbn; tauto.
  - intros Hq Hdim. rewrite parseTransformParams_params. cbv zeta.
    rewrite Hdim. cbn [orb negb]. eexists. split; [reflexivity|].
    cbn [quality]. destruct (param sp "quality") as [q|]; [|reflexivity].
    cbn [gt0] in Hq. now rewrite Hq.
  - intros Hw Hh Hq. rewrite parseTransformParams_params. cbv zeta.
    rewrite (param_of_null sp _ Hw), (param_of_null sp _ Hh),
      (param_of_null sp _ Hq). reflexivity.
Qed.

Lemma parseTransformParams_cases_witness :
  (exists t, parseTransformParams [("width", "-5"); ("quality", "150")] = Some t
             /\ quality t = 100)
  /\ parseTransformParams [("width", "abc"); ("height", "7"); ("quality", "0")]
     = parseTransformParams [("height", "7"); ("quality", "0")].
Proof.
  split.
  - apply (proj1 (proj2 (proj2 (parseTransformParams_cases
                                  [("width", "-5"); ("quality", "150")])))).
    reflexivity.
  - apply (proj1 (parseTransformParams_cases
                    [("width", "abc"); ("height", "7"); ("quality", "0")])
             "abc").
    + cbn. tauto.
    + reflexivity.
Defined.

(** C10.  A width, height or quality written as a positive decimal
    number followed by what is no digit, such as 5px, counts as that
    number made a [Number]: the number itself up to 2^53, the nearest
    double beyond.  The transform carries it as its width or height,
    and as its quality once brought down to 100. *)
Theorem parseTransformParams_prefix (sp : URLSearchParams) (ds rest : string) :
  all_chars is_digit ds = true ->
  0 < decimal ds 0 ->
  starts_with_digit rest = false ->
  (get sp "width" = Some (ds ++ rest) ->
     exists t, parseTransformParams sp = Some t
               /\ width t = Some (JS.to_Number (decimal ds 0)))
  /\ (get sp "height" = Some (ds ++ rest) ->
        exists t, parseTransformParams sp = Some t
                  /\ height t = Some (JS.to_Number (decimal ds 0)))
  /\ (get sp "quality" = Some (ds ++ rest) ->
        exists t, parseTransformParams sp = Some t
                  /\ quality t = Z.min (decimal ds 0) 100)
  /\ 0 < JS.to_Number (decimal ds 0)
  /\ (decimal ds 0 <= 2 ^ 53 ->
        JS.to_Number (decimal ds 0) = decimal ds 0).
Proof.
  intros Hds Hpos Hrest.
  assert (JS.parseInt_Number (ds ++ rest)
          = Some (JS.to_Number (decimal ds 0))) as P
    by (unfold JS.parseInt_Number;
        now rewrite (parseInt_prefix ds rest Hds Hpos Hrest)).
  pose proof (to_Number_positive _ Hpos) as Hn.
  assert ((0 <? JS.to_Number (decimal ds 0)) = true) as Hb
    by now apply Z.ltb_lt.
  repeat split; try exact Hn.
  - intros Hg. rewrite parseTransformParams_params. cbv zeta.
    rewrite (param_of_value sp _ _ Hg), P. cbn [gt0]. rewrite Hb.
    cbn [orb negb]. eexists. split; reflexivity.
  - intros Hg. rewrite parseTransformParams_params. cbv zeta.
    rewrite (param_of_value sp _ _ Hg), P. cbn [gt0]. rewrite Hb.
    rewrite ?orb_true_r. cbn [orb negb]. eexists. split; reflexivity.
  - intros Hg. rewrite parseTransformParams_params. cbv zeta.
    rewrite (param_of_value sp _ _ Hg), P. cbn [gt0]. rewrite Hb.
    rewrite ?orb_true_r. cbn [orb negb]. eexists. split; [reflexivity|].
    cbn [quality]. now apply to_Number_min.
  - intros Hle. apply to_Number_exact. lia.
Qed.

(** C10 with the number of the prefix taken exactly fails on the code:
    9007199254740993 is no double, and [parseInt] returns its
    neighbour. *)
Lemma parseTransformParams_prefix_exact_fails :
  ~ (forall (sp : URLSearchParams) (ds rest : string),
        all_chars is_digit ds = true ->
        0 < decimal ds 0 ->
        starts_with_digit rest = false ->
        get sp "width" = Some (ds ++ rest) ->
        exists t, parseTransformParams sp = Some t
                  /\ width t = Some (decimal ds 0)).
Proof.
  intros H.
  destruct (H [("width", "9007199254740993px")] "9007199254740993" "px"
              eq_refl eq_refl eq_refl eq_refl) as (t & Ht & Hw).
  vm_compute in Ht. injection Ht as <-. vm_compute in Hw. discriminate Hw.
Qed.

Lemma parseTransformParams_prefix_witness :
  exists t, parseTransformParams [("height", "0"); ("width", "5px")] = Some t
            /\ width t = Some 5.
Proof.
  apply (proj1 (parseTransformParams_prefix
                  [("height", "0"); ("width", "5px")] "5" "px"
                  eq_refl eq_refl eq_refl)).
  reflexivity.
Defined.

(** ** The request handler *)

Lemma GET_try_found (E : Env) (request : Request) (asset : Asset) :
  found E request asset ->
  GET_try E request =
  (canonicalPath <- getAssetProxyUrl E asset ;;
   redirect <- check_canonical E request canonicalPath ;;
   match redirect with
   | Some r => Ok r
   | None => fetch_stage E request asset
   end).
Proof.
  intros (assetId & Hdec & Hasset & Hpath).
  unfold GET_try. rewrite Hdec, Hasset. cbn [bind]. now rewrite Hpath.
Qed.

Lemma GET_try_not_redirected (E : Env) (request : Request) (asset : Asset) :
  not_redirected E request asset ->
  GET_try E request = fetch_stage E request asset.
Proof.
  intros (Hfound & canonicalPath & Hcanon & Hcheck).
  rewrite (GET_try_found E request asset Hfound), Hcanon. cbn [bind].
  now rewrite Hcheck.
Qed.

Lemma GET_try_fetched (E : Env) (request : Request) (asset : Asset)
    (response : FetchResponse) :
  fetched E request asset response ->
  GET_try E request = respond E request asset response.
Proof.
  intros (Hnr & supabase & Hclient & Hfetch & Hok).
  rewrite (GET_try_not_redirected E request asset Hnr).
  unfold fetch_stage. rewrite Hclient. cbn [bind]. cbv zeta.
  unfold public_url in Hfetch. rewrite Hfetch. cbn [bind]. now rewrite Hok.
Qed.

(** What can come out of lines 87 to 119 and of lines 72 to 119. *)
Lemma passthrough_status (asset : Asset) (response : FetchResponse)
    (r : Response) :
  passthrough asset response = Ok r -> status r = 200.
Proof.
  unfold passthrough. destruct (JS.header_value _); cbn [bind];
    [|discriminate].
  intros H. injection H as <-. reflexivity.
Qed.

Lemma respond_status (E : Env) (request : Request) (asset : Asset)
    (response : FetchResponse) (r : Response) :
  respond E request asset response = Ok r -> status r = 200.
Proof.
  unfold respond. cbv zeta.
  destruct (parseTransformParams (searchParams request)) as [t|];
    [destruct (isAssetOfType E (mime_type asset) (ASSET_CATEGORIES_IMAGES E))|].
  - destruct (toBuffer E (build_pipeline t (arrayBuffer response)));
      cbn [bind]; [|discriminate].
    intros H. injection H as <-. reflexivity.
  - apply passthrough_status.
  - apply passthrough_status.
Qed.

Lemma fetch_stage_outcome (E : Env) (request : Request) (asset : Asset)
    (r : Response) :
  fetch_stage E request asset = Ok r ->
  r = NOT_FOUND \/ r = SERVICE_UNAVAILABLE \/ status r = 200.
Proof.
  unfold fetch_stage.
  destruct (getSupabaseAdmin E) as [[supabase|]|e]; cbn [bind];
    [| intros H; injection H as <-; auto | discriminate].
  cbv zeta.
  destruct (fetch E _) as [response|e]; cbn [bind]; [|discriminate].
  destruct (ok response); cbn [negb].
  - intros H. right. right. eapply respond_status. exact H.
  - intros H. injection H as <-. auto.
Qed.

Lemma check_canonical_outcome (E : Env) (request : Request)
    (canonicalPath : option string) (r : Response) :
  check_canonical E request canonicalPath = Ok (Some r) ->
  status r = 301 /\ body r = BodyNull.
Proof.
  unfold check_canonical.
  destruct canonicalPath as [path|]; [|discriminate].
  destruct (truthy_string (Some path)); [|discriminate]. cbv zeta.
  destruct (negb _); [|discriminate].
  destruct (new_URL_on E path (origin (url request))); cbn [bind];
    [|discriminate].
  intros H. injection H as <-. split; reflexivity.
Qed.

(** Every answer of the handler. *)
Lemma GET_outcome (E : Env) (request : Request) :
  (status (GET E request) = 404
   /\ body (GET E request) = BodyText "Not found")
  \/ (status (GET E request) = 503
      /\ body (GET E request) = BodyText "Service unavailable")
  \/ (status (GET E request) = 500
      /\ body (GET E request) = BodyText "Internal server error")
  \/ (status (GET E request) = 301 /\ body (GET E request) = BodyNull)
  \/ status (GET E request) = 200.
Proof.
  unfold GET, GET_try.
  destruct (base62ToUuid (hash request)) as [assetId|e];
    [|left; split; reflexivity].
  destruct (getAssetForProxy E assetId) as [[asset|]|e]; cbn [bind];
    [| left; split; reflexivity | right; right; left; split; reflexivity].
  destruct (truthy_string (storage_path asset)); cbn [negb];
    [|left; split; reflexivity].
  destruct (getAssetProxyUrl E asset) as [canonicalPath|e]; cbn [bind];
    [| right; right; left; split; reflexivity].
  destruct (check_canonical E request canonicalPath) as [[r|]|e] eqn:C;
    cbn [bind]; [| | right; right; left; split; reflexivity].
  - right. right. right. left. eapply check_canonical_outcome. exact C.
  - destruct (fetch_stage E request asset) as [r|e] eqn:F;
      [| right; right; left; split; reflexivity].
    destruct (fetch_stage_outcome E request asset r F) as [->|[->|H]].
    + left. split; reflexivity.
    + right. left. split; reflexivity.
    + right. right. right. right. exact H.
Qed.

(** C2.  Each failure has its status and its body: a token that does not
    decode, an asset that is missing or has no storage path, and a fetch
    that does not succeed give 404 "Not found"; no storage client gives
    503 "Service unavailable"; whatever is thrown (by the catalog, the
    canonical path, the storage client, the fetch or the encoder) gives
    500 "Internal server error".  An answer that is none of these three
    is a redirect or a 200. *)
Theorem GET_failures (E : Env) (request : Request) :
  (forall e,
      base62ToUuid (hash request) = Throw e ->
      status (GET E request) = 404
      /\ body (GET E request) = BodyText "Not found")
  /\ (forall assetId,
        base62ToUuid (hash request) = Ok assetId ->
        getAssetForProxy E assetId = Ok None ->
        status (GET E request) = 404
        /\ body (GET E request) = BodyText "Not found")
  /\ (forall assetId asset,
        base62ToUuid (hash request) = Ok assetId ->
        getAssetForProxy E assetId = Ok (Some asset) ->
        truthy_string (storage_path asset) = false ->
        status (GET E request) = 404
        /\ body (GET E request) = BodyText "Not found")
  /\ (forall asset supabase response,
        not_redirected E request asset ->
        getSupabaseAdmin E = Ok (Some supabase) ->
        fetch E (public_url E supabase asset) = Ok response ->
        ok response = false ->
        status (GET E request) = 404
        /\ body (GET E request) = BodyText "Not found")
  /\ (forall asset,
        not_redirected E request asset ->
        getSupabaseAdmin E = Ok None ->
        status (GET E request) = 503
        /\ body (GET E request) = BodyText "Service unavailable")
  /\ (forall e,
        GET_try E request = Throw e ->
        status (GET E request) = 500
        /\ body (GET E request) = BodyText "Internal server error")
  /\ (forall assetId e,
        base62ToUuid (hash request) = Ok assetId ->
        getAssetForProxy E assetId = Throw e ->
        status (GET E request) = 500
        /\ body (GET E request) = BodyText "Internal server error")
  /\ (forall asset e,
        found E request asset ->
        getAssetProxyUrl E asset = Throw e ->
        status (GET E request) = 500
        /\ body (GET E request) = BodyText "Internal server error")
  /\ (forall asset e,
        not_redirected E request asset ->
        getSupabaseAdmin E = Throw e ->
        status (GET E request) = 500
        /\ body (GET E request) = BodyText "Internal server error")
  /\ (forall asset supabase e,
        not_redirected E request asset ->
        getSupabaseAdmin E = Ok (Some supabase) ->
        fetch E (public_url E supabase asset) = Throw e ->
        status (GET E request) = 500
        /\ body (GET E request) = BodyText "Internal server error")
  /\ (forall asset response transform e,
        fetched E request asset response ->
        parseTransformParams (searchParams request) = Some transform ->
        isAssetOfType E (mime_type asset) (ASSET_CATEGORIES_IMAGES E) = true ->
        toBuffer E (build_pipeline transform (arrayBuffer response)) = Throw e ->
        status (GET E request) = 500
        /\ body (GET E request) = BodyText "Internal server error")
  /\ ((status (GET E request) = 404
       /\ body (GET E request) = BodyText "Not found")
      \/ (status (GET E request) = 503
          /\ body (GET E request) = BodyText "Service unavailable")
      \/ (status (GET E request) = 500
          /\ body (GET E request) = BodyText "Internal server error")
      \/ (status (GET E request) = 301 /\ body (GET E request) = BodyNull)
      \/ status (GET E request) = 200).
Proof.
  assert (forall r, r = NOT_FOUND ->
            status r = 404 /\ body r = BodyText "Not found") as A404
    by (intros r ->; split; reflexivity).
  assert (forall r, r = SERVICE_UNAVAILABLE ->
            status r = 503 /\ body r = BodyText "Service unavailable") as A503
    by (intros r ->; split; reflexivity).
  assert (forall r, r = INTERNAL_SERVER_ERROR ->
            status r = 500 /\ body r = BodyText "Internal server error")
    as A500 by (intros r ->; split; reflexivity).
  split; [|split; [|split; [|split; [|split; [|split; [|split; [|split;
    [|split; [|split; [|split]]]]]]]]]].
  - intros e H. apply A404. unfold GET, GET_try. now rewrite H.
  - intros assetId Hd Ha. apply A404. unfold GET, GET_try. now rewrite Hd, Ha.
  - intros assetId asset Hd Ha Hp. apply A404. unfold GET, GET_try.
    rewrite Hd, Ha. cbn [bind]. now rewrite Hp.
  - intros asset supabase response Hnr Hc Hf Hok. apply A404. unfold GET.
    rewrite (GET_try_not_redirected E request asset Hnr).
    unfold fetch_stage. rewrite Hc. cbn [bind]. cbv zeta.
    unfold public_url in Hf. rewrite Hf. cbn [bind]. now rewrite Hok.
  - intros asset Hnr Hc. apply A503. unfold GET.
    rewrite (GET_try_not_redirected E request asset Hnr).
    unfold fetch_stage. now rewrite Hc.
  - intros e H. apply A500. unfold GET. now rewrite H.
  - intros assetId e Hd Ha. apply A500. unfold GET, GET_try.
    now rewrite Hd, Ha.
  - intros asset e Hfound Hc. apply A500. unfold GET.
    rewrite (GET_try_found E request asset Hfound). now rewrite Hc.
  - intros asset e Hnr Hc. apply A500. unfold GET.
    rewrite (GET_try_not_redirected E request asset Hnr).
    unfold fetch_stage. now rewrite Hc.
  - intros asset supabase e Hnr Hc Hf. apply A500. unfold GET.
    rewrite (GET_try_not_redirected E request asset Hnr).
    unfold fetch_stage. rewrite Hc. cbn [bind]. cbv zeta.
    unfold public_url in Hf. now rewrite Hf.
  - intros asset response transform e Hf Ht Himg Hthrow. apply A500.
    unfold GET. rewrite (GET_try_fetched E request asset response Hf).
    unfold respond. cbv zeta. rewrite Ht, Himg, Hthrow. reflexivity.
  - apply GET_outcome.
Qed.

Lemma GET_failures_witness :
  let bad :=
    {| hash := "not/a-token"; name := ["new-name.png"];
       url := url (example_request ["new-name.png"] "" []);
       searchParams := [] |} in
  let no_client :=
    with_store example_env (Ok None) (fetch example_env)
      (toBuffer example_env) in
  (status (GET example_env bad) = 404
   /\ body (GET example_env bad) = BodyText "Not found")
  /\ (status (GET no_client (example_request ["new-name.png"] "" [])) = 503
      /\ body (GET no_client (example_request ["new-name.png"] "" []))
         = BodyText "Service unavailable").
Proof.
  split.
  - apply (proj1 (GET_failures example_env _)
             (InvalidBase62Character "/")).
    vm_compute. reflexivity.
  - refine (proj1 (proj2 (proj2 (proj2 (proj2
              (GET_failures
                 (with_store example_env (Ok None) (fetch example_env)
                    (toBuffer example_env))
                 (example_request ["new-name.png"] "" []))))))
              example_asset _ eq_refl).
    split.
    + exists "8f2a4b1c-7d8e-4f12-b345-6789abcdef01".
      repeat split; vm_compute; reflexivity.
    + exists (Some "/a/4M9EJZZtPhcA3iTjadiWkD/new-name.png").
      split; reflexivity.
Defined.






(** C5.  With a quality that reads as a positive number, and no width
    and no height that do, on an image whose bytes came back: the
    transform is there, without width or height; the pipeline has no
    resize step and encodes at that quality, brought down to 100; the
    answer is what the encoder returns, or a 500 when it throws. *)
Theorem GET_quality_only (E : Env) (request : Request) (asset : Asset)
    (response : FetchResponse) (q : Z) :
  fetched E request asset response ->
  isAssetOfType E (mime_type asset) (ASSET_CATEGORIES_IMAGES E) = true ->
  param (searchParams request) "quality" = Some q ->
  0 < q ->
  gt0 (param (searchParams request) "width") = false ->
  gt0 (param (searchParams request) "height") = false ->
  let pipeline :=
    {| input := arrayBuffer response; resize := None;
       webp := Some (Z.min q 100) |} in
  parseTransformParams (searchParams request)
  = Some {| width := None; height := None; quality := Z.min q 100 |}
  /\ GET E request =
     match toBuffer E pipeline with
     | Ok resized => transcoded resized
     | Throw _ => INTERNAL_SERVER_ERROR
     end.
Proof.
  intros Hf Himg Hq Hpos Hw Hh pipeline.
  assert (parseTransformParams (searchParams request)
          = Some {| width := None; height := None; quality := Z.min q 100 |})
    as Ht.
  { rewrite parseTransformParams_params. cbv zeta.
    rewrite Hw, Hh, Hq. cbn [gt0].
    apply Z.ltb_lt in Hpos. now rewrite Hpos. }
  split; [exact Ht|].
  unfold GET. rewrite (GET_try_fetched E request asset response Hf).
  unfold respond. cbv zeta. rewrite Ht, Himg.
  change (build_pipeline
            {| width := None; height := None; quality := Z.min q 100 |}
            (arrayBuffer response)) with pipeline.
  now destruct (toBuffer E pipeline).
Qed.

Lemma example_fetched (segments : list string) (query : string)
    (sp : URLSearchParams) :
  JS.join "/" segments = "new-name.png" ->
  fetched example_env (example_request segments query sp) example_asset
    {| ok := true; arrayBuffer := [Byte.x89; Byte.x50; Byte.x4e] |}.
Proof.
  intros Hname. split; [split|].
  - exists "8f2a4b1c-7d8e-4f12-b345-6789abcdef01".
    repeat split; vm_compute; reflexivity.
  - exists (Some "/a/4M9EJZZtPhcA3iTjadiWkD/new-name.png").
    split; [reflexivity|].
    unfold check_canonical. cbv zeta. cbn [example_request name].
    rewrite Hname. reflexivity.
  - eexists. repeat split; reflexivity.
Defined.

Lemma GET_quality_only_witness :
  parseTransformParams [("quality", "150"); ("width", "0")]
  = Some {| width := None; height := None; quality := 100 |}
  /\ GET example_env
       (example_request ["new-name.png"] "?quality=150&width=0"
          [("quality", "150"); ("width", "0")])
     = transcoded [Byte.x89; Byte.x50; Byte.x4e].
Proof.
  refine (GET_quality_only example_env
            (example_request ["new-name.png"] "?quality=150&width=0"
               [("quality", "150"); ("width", "0")])
            example_asset
            {| ok := true; arrayBuffer := [Byte.x89; Byte.x50; Byte.x4e] |}
            150 _ _ _ _ _ _).
  - apply example_fetched. reflexivity.
  - reflexivity.
  - reflexivity.
  - reflexivity.
  - reflexivity.
  - reflexivity.
Defined.

Lemma fetched_with_toBuffer (E : Env) (request : Request) (asset : Asset)
    (response : FetchResponse) (f : Pipeline -> result bytes) :
  fetched E request asset response ->
  fetched (with_toBuffer E f) request asset response.
Proof. intros H. exact H. Qed.

Lemma strip_end_kept (s : string) :
  ends_with_whitespace s = false -> JS.strip_end s = s.
Proof.
  induction s as [|c r IH]; [reflexivity|].
  cbn [ends_with_whitespace JS.strip_end]. destruct r as [|d r'].
  - cbn [JS.strip_end]. now intros ->.
  - intros H. now rewrite (IH H).
Qed.

Lemma header_value_kept (v : string) :
  is_header_value v = true -> JS.header_value v = Ok v.
Proof.
  unfold is_header_value, JS.header_value. cbv zeta. intros H.
  apply andb_prop in H as [H Hb]. apply andb_prop in H as [Hs He].
  apply negb_true_iff in Hs, He, Hb.
  assert (JS.strip_start v = v) as ->.
  { destruct v as [|c r]; [reflexivity|]. cbn [starts_with_whitespace] in Hs.
    cbn [JS.strip_start]. now rewrite Hs. }
  rewrite (strip_end_kept v He). now rewrite Hb.
Qed.

Lemma passthrough_type (asset : Asset) (response : FetchResponse) :
  passthrough asset response =
  (contentType <- JS.header_value (stored_type asset) ;;
   Ok {| status := 200;
         headers := [("Content-Type", contentType)];
         body := BodyBytes (arrayBuffer response) |}).
Proof.
  unfold passthrough, stored_type.
  destruct (mime_type asset) as [[|c m]|]; reflexivity.
Qed.

(** A request that ends in lines 114 to 119. *)
Lemma GET_passthrough (E : Env) (request : Request) (asset : Asset)
    (response : FetchResponse) :
  GET_try E request = passthrough asset response ->
  (forall contentType,
      JS.header_value (stored_type asset) = Ok contentType ->
      GET E request =
      {| status := 200;
         headers := [("Content-Type", contentType)];
         body := BodyBytes (arrayBuffer response) |})
  /\ (is_header_value (stored_type asset) = true ->
      GET E request =
      {| status := 200;
         headers := [("Content-Type", stored_type asset)];
         body := BodyBytes (arrayBuffer response) |})
  /\ (forall e,
        JS.header_value (stored_type asset) = Throw e ->
        status (GET E request) = 500
        /\ body (GET E request) = BodyText "Internal server error").
Proof.
  intros P. unfold GET. rewrite P, passthrough_type. repeat split.
  - intros contentType ->. reflexivity.
  - intros H. now rewrite (header_value_kept _ H).
  - now rewrite H.
  - now rewrite H.
Qed.

(** C8.  For an asset that is no image and whose bytes came back,
    transform parameters or not, the encoder is not run: whatever
    encoder is put in its place, the answer is the same.  The answer
    depends on the stored MIME type, or application/octet-stream when
    there is none, as [new Response] takes it for a header: when it
    passes, the status is 200, the body is the fetched bytes and the
    content type is that value, white space at its ends stripped; a
    stored type that is a header value as it stands is the content type
    as it stands; a stored type with a NUL, a line feed or a carriage
    return inside is refused, and the answer is the 500. *)
Theorem GET_not_an_image (E : Env) (request : Request) (asset : Asset)
    (response : FetchResponse) :
  fetched E request asset response ->
  isAssetOfType E (mime_type asset) (ASSET_CATEGORIES_IMAGES E) = false ->
  (forall contentType,
      JS.header_value (stored_type asset) = Ok contentType ->
      GET E request =
      {| status := 200;
         headers := [("Content-Type", contentType)];
         body := BodyBytes (arrayBuffer response) |})
  /\ (is_header_value (stored_type asset) = true ->
      GET E request =
      {| status := 200;
         headers := [("Content-Type", stored_type asset)];
         body := BodyBytes (arrayBuffer response) |})
  /\ (forall e,
        JS.header_value (stored_type asset) = Throw e ->
        status (GET E request) = 500
        /\ body (GET E request) = BodyText "Internal server error")
  /\ forall f, GET (with_toBuffer E f) request = GET E request.
Proof.
  intros Hf Himg.
  assert (forall E', fetched E' request asset response ->
            isAssetOfType E' (mime_type asset) (ASSET_CATEGORIES_IMAGES E')
            = false ->
            GET_try E' request = passthrough asset response) as P.
  { intros E' Hf' Himg'.
    rewrite (GET_try_fetched E' request asset response Hf').
    unfold respond. cbv zeta. rewrite Himg'.
    now destruct (parseTransformParams (searchParams request)). }
  destruct (GET_passthrough E request asset response (P E Hf Himg))
    as (H1 & H2 & H3).
  split; [exact H1|]. split; [exact H2|]. split; [exact H3|].
  intros f. unfold GET. rewrite (P E Hf Himg).
  now rewrite (P _ (fetched_with_toBuffer E request asset response f Hf)
                 Himg).
Qed.

Lemma example_documents_fetched (segments : list string) (query : string)
    (sp : URLSearchParams) :
  fetched example_documents (example_request segments query sp)
    example_document
    {| ok := true; arrayBuffer := [Byte.x89; Byte.x50; Byte.x4e] |}.
Proof.
  split; [split|].
  - exists "8f2a4b1c-7d8e-4f12-b345-6789abcdef01".
    repeat split; vm_compute; reflexivity.
  - exists None. split; reflexivity.
  - eexists. repeat split; reflexivity.
Defined.

Lemma GET_not_an_image_witness :
  GET example_documents
    (example_request ["terms.pdf"] "?width=200&quality=60"
       [("width", "200"); ("quality", "60")])
  = {| status := 200;
       headers := [("Content-Type", "application/pdf")];
       body := BodyBytes [Byte.x89; Byte.x50; Byte.x4e] |}.
Proof.
  refine (proj1 (proj2 (GET_not_an_image example_documents
                   (example_request ["terms.pdf"] "?width=200&quality=60"
                      [("width", "200"); ("quality", "60")])
                   example_document
                   {| ok := true;
                      arrayBuffer := [Byte.x89; Byte.x50; Byte.x4e] |} _ _))
            _).
  - apply example_documents_fetched.
  - reflexivity.
  - reflexivity.
Defined.

(** C8, as the specification words it.  The content type is the stored
    MIME type for no asset whose stored type holds a line feed: the page
    of the example is answered with the 500. *)
Lemma GET_not_an_image_line_feed :
  ~ (forall (E : Env) (request : Request) (asset : Asset)
       (response : FetchResponse),
       fetched E request asset response ->
       isAssetOfType E (mime_type asset) (ASSET_CATEGORIES_IMAGES E) = false ->
       GET E request =
       {| status := 200;
          headers := [("Content-Type", stored_type asset)];
          body := BodyBytes (arrayBuffer response) |})
  /\ GET example_pages (example_request ["page.html"] "?width=200" [("width", "200")])
     = {| status := 500;
          headers := [("Content-Type", "text/plain;charset=UTF-8")];
          body := BodyText "Internal server error" |}.
Proof.
  assert (GET example_pages
            (example_request ["page.html"] "?width=200" [("width", "200")])
          = {| status := 500;
               headers := [("Content-Type", "text/plain;charset=UTF-8")];
               body := BodyText "Internal server error" |}) as G
    by (vm_compute; reflexivity).
  split; [|exact G].
  intros H.
  specialize (H example_pages
                (example_request ["page.html"] "?width=200" [("width", "200")])
                example_page
                {| ok := true; arrayBuffer := [Byte.x89; Byte.x50; Byte.x4e] |}).
  rewrite G in H.
  assert (500 = 200) as A; [|discriminate A].
  refine (f_equal status (H _ eq_refl)).
  split; [split|].
  - exists "8f2a4b1c-7d8e-4f12-b345-6789abcdef01".
    repeat split; vm_compute; reflexivity.
  - exists None. split; reflexivity.
  - eexists. repeat split; reflexivity.
Qed.

(** * Further properties *)

(** ** The codec beyond the round trip *)

Lemma base62_padded_valid (n : Z) (k : nat) :
  is_base62 (JS.padStart (written BASE62_CHARS 62 n) k "0") = true.
Proof.
  apply (padded_valid base62_digit 62 BASE62_CHARS);
    [lia | exact base62_symbol_at | exact base62_zero].
Qed.

(** X1.  The token of an identifier is made of the 62 symbols and stands
    for the number the identifier stands for, which is below 2^128. *)
Theorem uuidToBase62_value (x : string) :
  is_uuid x = true ->
  exists t v,
    uuidToBase62 x = Ok t
    /\ is_base62 t = true
    /\ base62_value t = Some v
    /\ uuid_value x = Some v
    /\ in_range t = true.
Proof.
  intros Hx. destruct (uuid_number x Hx) as (v & Hbig & Hv & Hrange).
  exists (JS.padStart (written BASE62_CHARS 62 v) 22 "0"), v.
  assert (base62_value (JS.padStart (written BASE62_CHARS 62 v) 22 "0")
          = Some v) as Hval by (apply base62_padded_value; lia).
  repeat split.
  - now rewrite uuidToBase62_written, Hbig.
  - apply base62_padded_valid.
  - exact Hval.
  - exact Hv.
  - unfold in_range. rewrite Hval. apply Z.ltb_lt. lia.
Qed.

Lemma uuidToBase62_value_witness :
  exists t v,
    uuidToBase62 "8f2a4b1c-7d8e-4f12-b345-6789abcdef01" = Ok t
    /\ is_base62 t = true
    /\ base62_value t = Some v
    /\ uuid_value "8f2a4b1c-7d8e-4f12-b345-6789abcdef01" = Some v
    /\ in_range t = true.
Proof.
  apply (uuidToBase62_value "8f2a4b1c-7d8e-4f12-b345-6789abcdef01").
  vm_compute. reflexivity.
Defined.

(** X2.  Two identifiers with the same token are the same identifier,
    up to the case of their hex digits. *)
Theorem uuidToBase62_injective (x y : string) :
  is_uuid x = true ->
  is_uuid y = true ->
  uuidToBase62 x = uuidToBase62 y ->
  JS.toLowerCase x = JS.toLowerCase y.
Proof.
  intros Hx Hy E.
  destruct (uuid_dashed x Hx) as (Hlx & Hhx & Hdx).
  destruct (uuid_dashed y Hy) as (Hly & Hhy & Hdy).
  destruct (uuid_number x Hx) as (vx & Hbx & Hvx & Hrx).
  destruct (uuid_number y Hy) as (vy & Hby & Hvy & Hry).
  rewrite !uuidToBase62_written, Hbx, Hby in E. cbn [bind] in E.
  injection E as E.
  assert (Some vx = Some vy) as Hv.
  { rewrite <- (base62_padded_value vx 22) by lia.
    rewrite <- (base62_padded_value vy 22) by lia. now rewrite E. }
  injection Hv as <-.
  assert (JS.toLowerCase (JS.remove_char "-" x)
          = JS.toLowerCase (JS.remove_char "-" y)) as Hh.
  { apply (accumulate_inj hex_index 16 ltac:(lia) hex_below hex_inj
             _ _ 0 vx); [lia | | exact Hvx | exact Hvy].
    now rewrite !length_toLowerCase, Hlx, Hly. }
  rewrite <- Hdx, <- Hdy at 1.
  rewrite !dashed_lower by assumption. now rewrite Hh.
Qed.

Lemma uuidToBase62_injective_witness :
  JS.toLowerCase "8F2A4B1C-7D8E-4F12-B345-6789ABCDEF01"
  = JS.toLowerCase "8f2a4b1c-7d8e-4f12-b345-6789abcdef01".
Proof.
  apply uuidToBase62_injective; vm_compute; reflexivity.
Defined.

(** X3.  A token of any length whose number is below 2^128 decodes to
    the identifier of that number, written in lower case. *)
Theorem base62ToUuid_value (t : string) (v : Z) :
  base62_value t = Some v ->
  v < 2 ^ 128 ->
  exists u,
    base62ToUuid t = Ok u
    /\ is_uuid u = true
    /\ uuid_value u = Some v
    /\ JS.toLowerCase u = u.
Proof.
  intros Hv Hr.
  pose proof (accumulate_bounds base62_digit 62 ltac:(lia) base62_below
                t 0 v ltac:(lia) Hv) as B.
  assert (0 <= v < 2 ^ 128) as Hrange by lia.
  set (hex := JS.padStart (written JS.RADIX_DIGITS 16 v) 32 "0").
  assert (String.length hex = 32%nat) as Hhl by now apply hex_padded_length.
  assert (all_chars (fun c => 0 <=? hex_index c) hex = true) as Hhv
    by apply hex_padded_valid.
  assert (all_chars is_hex_digit hex = true) as Hhd
    by (eapply all_chars_impl; [exact hex_index_digit | exact Hhv]).
  exists (dashed hex). repeat split.
  - now apply base62ToUuid_written.
  - apply dashed_shape; [lia | exact Hhd].
  - unfold uuid_value. rewrite (dashed_remove hex Hhl Hhd).
    rewrite (lower_fixed hex Hhv). apply hex_padded_value. lia.
  - rewrite dashed_lower by exact Hhl. now rewrite (lower_fixed hex Hhv).
Qed.

Lemma base62ToUuid_value_witness :
  exists u,
    base62ToUuid "1z" = Ok u
    /\ is_uuid u = true
    /\ uuid_value u = Some 123
    /\ JS.toLowerCase u = u.
Proof.
  apply (base62ToUuid_value "1z" 123); vm_compute; reflexivity.
Defined.

Lemma base62_loop_zeros (k : nat) (t : string) :
  base62_loop (JS.repeat_char "0" k ++ t) 0 = base62_loop t 0.
Proof.
  induction k as [|k IH]; [reflexivity|].
  cbn [JS.repeat_char append base62_loop]. cbv zeta.
  change (JS.indexOf "0" BASE62_CHARS) with 0. exact IH.
Qed.

(** X4.  Zero symbols in front of a token change nothing: a token and
    its zero-padded forms decode to the same identifier, or fail on the
    same character. *)
Theorem base62ToUuid_leading_zeros (k : nat) (t : string) :
  base62ToUuid (JS.repeat_char "0" k ++ t) = base62ToUuid t.
Proof. unfold base62ToUuid. now rewrite base62_loop_zeros. Qed.

Lemma dashed_prefix (h rest : string) :
  String.length h = 32%nat -> dashed (h ++ rest) = dashed h.
Proof.
  intros Hlen. peel h Hlen. destruct h; [|discriminate Hlen].
  unfold dashed, JS.join, JS.slice.
  cbn [String.concat substring Nat.sub append].
  now rewrite substring_0_0.
Qed.

Lemma padStart_long (s : string) (k : nat) (c : ascii) :
  (k <= String.length s)%nat -> JS.padStart s k c = s.
Proof.
  intros H. unfold JS.padStart.
  now replace (k - String.length s)%nat with 0%nat by lia.
Qed.

(** X5.  A token of 22 symbols whose number [v] is 2^128 or more stands
    for 33 hex digits; [base62ToUuid] keeps the first 32 and returns the
    identifier of [v / 16]. *)
Theorem base62ToUuid_over_range (t : string) (v : Z) :
  String.length t = 22%nat ->
  base62_value t = Some v ->
  2 ^ 128 <= v ->
  exists u,
    base62ToUuid t = Ok u
    /\ is_uuid u = true
    /\ uuid_value u = Some (v / 16).
Proof.
  intros Hlen Hv Hbig.
  pose proof (accumulate_bounds base62_digit 62 ltac:(lia) base62_below
                t 0 v ltac:(lia) Hv) as B.
  rewrite Hlen in B.
  assert (62 ^ Z.of_nat 22 < 2 ^ 132) as P1 by (vm_compute; reflexivity).
  assert (2 ^ 128 = 16 * 16 ^ Z.of_nat 31) as P2 by (vm_compute; reflexivity).
  assert (2 ^ 132 = 16 * 16 ^ Z.of_nat 32) as P3 by (vm_compute; reflexivity).
  assert (16 ^ Z.of_nat 31 <= v / 16 < 16 ^ Z.of_nat 32) as Hw.
  { split; [apply Z.div_le_lower_bound | apply Z.div_lt_upper_bound]; lia. }
  set (h := written JS.RADIX_DIGITS 16 (v / 16)).
  assert (String.length h = 32%nat) as Hhl
    by (apply (written_length_exact hex_index 16 JS.RADIX_DIGITS);
        [lia | exact hex_below | exact hex_symbol_at | exact Hw]).
  assert (all_chars (fun c => 0 <=? hex_index c) h = true) as Hhv
    by (apply (written_valid hex_index 16 JS.RADIX_DIGITS);
        [lia | exact hex_symbol_at]).
  assert (all_chars is_hex_digit h = true) as Hhd
    by (eapply all_chars_impl; [exact hex_index_digit | exact Hhv]).
  assert (written JS.RADIX_DIGITS 16 v
          = h ++ JS.char_at JS.RADIX_DIGITS (v mod 16)) as Hstep
    by (apply (written_step 16 JS.RADIX_DIGITS); lia).
  exists (dashed h). repeat split.
  - rewrite (base62ToUuid_written t v Hv). f_equal.
    rewrite padStart_long by (rewrite Hstep, length_append; lia).
    rewrite Hstep. now apply dashed_prefix.
  - apply dashed_shape; [lia | exact Hhd].
  - unfold uuid_value. rewrite (dashed_remove h Hhl Hhd).
    rewrite (lower_fixed h Hhv).
    apply (written_value hex_index 16 JS.RADIX_DIGITS);
      [lia | exact hex_symbol_at | lia].
Qed.

Lemma base62ToUuid_over_range_witness :
  exists u,
    base62ToUuid "zzzzzzzzzzzzzzzzzzzzzz" = Ok u
    /\ is_uuid u = true
    /\ uuid_value u = Some ((62 ^ 22 - 1) / 16).
Proof.
  apply (base62ToUuid_over_range "zzzzzzzzzzzzzzzzzzzzzz" (62 ^ 22 - 1));
    vm_compute; try reflexivity. discriminate.
Defined.

Lemma read_digits_not_hex (s : string) (acc : Z) (n : nat) :
  all_chars is_hex_digit s = false ->
  exists v m c r, JS.read_digits 16 s acc n = (v, m, String c r).
Proof.
  revert acc n. induction s as [|c s IH]; intros acc n H.
  - discriminate H.
  - cbn [all_chars] in H. cbn [JS.read_digits]. cbv zeta.
    unfold is_hex_digit in H. rewrite Z.leb_antisym in H.
    destruct (JS.digit_value 16 c <? 0).
    + now exists acc, n, c, s.
    + cbn [negb andb] in H. now apply IH.
Qed.

Lemma BigInt_0x_reject (s : string) :
  hex_literal s = false -> JS.BigInt_0x s = Throw SyntaxError.
Proof.
  unfold hex_literal, JS.BigInt_0x. destruct (JS.trimEnd s) as [|c r].
  - reflexivity.
  - intros H.
    destruct (read_digits_not_hex _ 0 0 H) as (v & m & d & q & ->).
    now destruct m.
Qed.

Lemma BigInt_0x_accept (s : string) :
  hex_literal s = true -> exists v, 0 <= v /\ JS.BigInt_0x s = Ok v.
Proof.
  unfold hex_literal, JS.BigInt_0x. destruct (JS.trimEnd s) as [|c r];
    [discriminate|].
  intros H.
  destruct (accumulate_valid hex_index 16 _ 0 (lower_hex_valid _ H)) as [v Hv].
  pose proof (accumulate_bounds hex_index 16 ltac:(lia) hex_below
                _ 0 v ltac:(lia) Hv) as B.
  exists v. split; [lia|].
  now rewrite (read_digits_hex _ 0 v 0 Hv).
Qed.

(** X6.  [uuidToBase62] checks no shape: with the dashes taken out, any
    run of hex digits, however short or long, is encoded, to 22 symbols
    or more; anything else is a [SyntaxError], the empty string too. *)
Theorem uuidToBase62_accepts (s : string) :
  (hex_literal (JS.remove_char "-" s) = true ->
     exists t, uuidToBase62 s = Ok t
               /\ (22 <= String.length t)%nat
               /\ is_base62 t = true)
  /\ (hex_literal (JS.remove_char "-" s) = false ->
        uuidToBase62 s = Throw SyntaxError).
Proof.
  rewrite uuidToBase62_written. split; intros H.
  - destruct (BigInt_0x_accept _ H) as (v & Hv & ->). cbn [bind].
    eexists. split; [reflexivity|]. split.
    + apply padStart_length_ge.
    + apply base62_padded_valid.
  - now rewrite (BigInt_0x_reject _ H).
Qed.

Lemma uuidToBase62_accepts_witness :
  (exists t, uuidToBase62 "f-f" = Ok t
             /\ (22 <= String.length t)%nat
             /\ is_base62 t = true)
  /\ uuidToBase62 "" = Throw SyntaxError
  /\ uuidToBase62 "8f2a4b1c-7d8e-4f12-b345-6789abcdefg1" = Throw SyntaxError.
Proof.
  split; [|split].
  - apply (proj1 (uuidToBase62_accepts "f-f")). vm_compute. reflexivity.
  - apply (proj2 (uuidToBase62_accepts "")). vm_compute. reflexivity.
  - apply (proj2 (uuidToBase62_accepts _)). vm_compute. reflexivity.
Defined.

(** ** [mimeToExtension] as an extension *)

Lemma MIME_MAP_values (key v : string) :
  own_property MIME_MAP key = Some v -> v <> "" /\ no_char "/" v = true.
Proof.
  intros H. apply own_property_in in H.
  assert (forallb (fun v => negb (String.eqb v "") && no_char "/" v)
            (map snd MIME_MAP) = true) as A by (vm_compute; reflexivity).
  rewrite forallb_forall in A. specialize (A v H).
  apply andb_true_iff in A. destruct A as [A1 A2]. split; [|exact A2].
  intros ->. discriminate A1.
Qed.

(** X7.  On a MIME type that names nothing inherited, the extension is a
    string that is not empty and has no slash in it. *)
Theorem mimeToExtension_extension (mimeType : string) :
  not_inherited mimeType = true ->
  exists ext,
    mimeToExtension mimeType = JsString ext
    /\ ext <> ""
    /\ no_char "/" ext = true.
Proof.
  intros Hni. destruct (split_last "/" mimeType)
    as (init & seg & Hsplit & Hno & _ & _).
  unfold mimeToExtension, get_property. rewrite Hsplit, pop_last.
  destruct (own_property MIME_MAP mimeType) as [ext|] eqn:Hown.
  - destruct (MIME_MAP_values _ _ Hown) as [Hne Hsl].
    exists ext. destruct ext; [now contradiction Hne|]. auto.
  - unfold not_inherited in Hni. apply negb_true_iff in Hni. rewrite Hni.
    cbn [js_or]. destruct seg as [|c seg].
    + exists "bin". split; [reflexivity|]. split; [discriminate | reflexivity].
    + exists (String c seg). split; [reflexivity|].
      split; [discriminate | exact Hno].
Qed.

Lemma mimeToExtension_extension_witness :
  exists ext,
    mimeToExtension "application/vnd.ms-excel/" = JsString ext
    /\ ext <> ""
    /\ no_char "/" ext = true.
Proof.
  apply (mimeToExtension_extension "application/vnd.ms-excel/").
  vm_compute. reflexivity.
Defined.

(** X8.  On each of the twelve names that an object literal inherits
    from [Object.prototype], the lookup in the table finds the inherited
    value, and [mimeToExtension] returns it: no string. *)
Theorem mimeToExtension_inherited (mimeType : string) :
  not_inherited mimeType = false ->
  mimeToExtension mimeType = JsInherited mimeType.
Proof.
  intros H. unfold not_inherited in H. apply negb_false_iff in H.
  apply existsb_exists in H. destruct H as (k & Hin & Hk).
  apply String.eqb_eq in Hk. subst k.
  assert (forallb (fun k => match mimeToExtension k with
                            | JsInherited k' => String.eqb k' k
                            | _ => false
                            end) OBJECT_PROTOTYPE_KEYS = true) as A
    by (vm_compute; reflexivity).
  rewrite forallb_forall in A. specialize (A _ Hin).
  destruct (mimeToExtension mimeType) as [| k' |]; try discriminate A.
  apply String.eqb_eq in A. now subst k'.
Qed.

Lemma mimeToExtension_inherited_witness :
  mimeToExtension "toString" = JsInherited "toString".
Proof. apply mimeToExtension_inherited. vm_compute. reflexivity. Defined.

(** ** The transform parameters as data *)

(** X9.  The parser returns [null] exactly when none of the three
    parameters reads as a positive number.  In a transform the quality
    is between 1 and 100, and a width or height that is there is the
    positive number read under that name. *)
Theorem parseTransformParams_result (sp : URLSearchParams) :
  match parseTransformParams sp with
  | None =>
      gt0 (param sp "width") = false
      /\ gt0 (param sp "height") = false
      /\ gt0 (param sp "quality") = false
  | Some t =>
      gt0 (param sp "width") || gt0 (param sp "height")
        || gt0 (param sp "quality") = true
      /\ 1 <= quality t <= 100
      /\ (forall w, width t = Some w -> 0 < w /\ param sp "width" = Some w)
      /\ (forall h, height t = Some h -> 0 < h /\ param sp "height" = Some h)
      /\ (width t = None -> gt0 (param sp "width") = false)
      /\ (height t = None -> gt0 (param sp "height") = false)
  end.
Proof.
  rewrite parseTransformParams_params. cbv zeta.
  destruct (param sp "width") as [w|], (param sp "height") as [h|],
    (param sp "quality") as [q|]; cbn [gt0];
    try destruct (0 <? w) eqn:Ew; try destruct (0 <? h) eqn:Eh;
    try destruct (0 <? q) eqn:Eq; cbn [orb negb width height quality];
    try apply Z.ltb_lt in Ew; try apply Z.ltb_lt in Eh;
    try apply Z.ltb_lt in Eq;
    repeat split; try reflexivity; try lia; try discriminate;
    try (intros ? [= <-]; assumption); try (intros ? [= <-]; reflexivity).
  all: try congruence.
  all: match goal with
       | H : Some _ = Some _ |- _ => injection H as <-; assumption
       end.
Qed.

Lemma read_digits_nonneg (radix : Z) (s : string) (acc : Z) (n : nat) :
  0 <= radix -> 0 <= acc ->
  0 <= fst (fst (JS.read_digits radix s acc n)).
Proof.
  intros Hr. revert acc n. induction s as [|c s IH]; intros acc n Hacc.
  - exact Hacc.
  - cbn [JS.read_digits]. cbv zeta.
    destruct (JS.digit_value radix c <? 0) eqn:E; [exact Hacc|].
    apply Z.ltb_ge in E. apply IH. nia.
Qed.

Lemma negated_digits_not_positive (radix : Z) (s : string) :
  0 <= radix ->
  gt0 match JS.read_digits radix s 0 0 with
      | (_, O, _) => None
      | (v, S _, _) => Some (-1 * v)
      end = false.
Proof.
  intros Hr. pose proof (read_digits_nonneg radix s 0 0 Hr ltac:(lia)) as P.
  destruct (JS.read_digits radix s 0 0) as [[v m] r]. cbn [fst] in P.
  destruct m; [reflexivity|]. cbn [gt0]. apply Z.ltb_ge. lia.
Qed.

Lemma parseInt_minus (rest : string) :
  gt0 (JS.parseInt (String "-" rest)) = false.
Proof.
  unfold JS.parseInt.
  change (JS.trimStart (String "-" rest)) with (String "-" rest).
  cbv beta iota zeta.
  destruct rest as [|a r]; [reflexivity|].
  destruct a as [[] [] [] [] [] [] [] []]; cbv beta iota zeta;
    try (apply negated_digits_not_positive; lia).
  destruct r as [|b r]; [reflexivity|].
  destruct b as [[] [] [] [] [] [] [] []]; cbv beta iota zeta;
    apply negated_digits_not_positive; lia.
Qed.

(** X10.  A width, height or quality that starts with a minus sign,
    whatever follows, counts for nothing: the result is that of the
    query without the parameter. *)
Theorem parseTransformParams_negative (sp : URLSearchParams)
    (k rest : string) :
  In k ["width"; "height"; "quality"] ->
  get sp k = Some (String "-" rest) ->
  parseTransformParams sp = parseTransformParams (delete sp k).
Proof.
  intros Hk Hg. apply parseTransformParams_delete; [exact Hk|].
  rewrite (param_of_value sp k _ Hg). unfold JS.parseInt_Number.
  rewrite gt0_to_Number. apply parseInt_minus.
Qed.

Lemma parseTransformParams_negative_witness :
  parseTransformParams [("width", "-300x"); ("quality", "40")]
  = parseTransformParams (delete [("width", "-300x"); ("quality", "40")] "width").
Proof.
  apply (parseTransformParams_negative _ "width" "300x").
  - cbn. tauto.
  - reflexivity.
Defined.

Lemma read_digits_hex_prefix (hs rest : string) (acc v : Z) (n : nat) :
  accumulate hex_index 16 (JS.toLowerCase hs) acc = Some v ->
  starts_with_hex_digit rest = false ->
  JS.read_digits 16 (hs ++ rest) acc n = (v, (n + String.length hs)%nat, rest).
Proof.
  intros Hv Hrest. revert acc n Hv.
  induction hs as [|c hs IH]; intros acc n Hv.
  - cbn [JS.toLowerCase accumulate] in Hv. injection Hv as ->.
    cbn [append String.length]. rewrite Nat.add_0_r.
    destruct rest as [|c r]; [reflexivity|].
    cbn [starts_with_hex_digit] in Hrest. cbn [JS.read_digits]. cbv zeta.
    unfold is_hex_digit in Hrest. rewrite Z.leb_antisym in Hrest.
    apply negb_false_iff in Hrest. now rewrite Hrest.
  - cbn [JS.toLowerCase accumulate] in Hv.
    cbn [append JS.read_digits String.length]. cbv zeta.
    rewrite digit_value_lower.
    destruct (hex_index (JS.toLowerChar c) <? 0); [discriminate|].
    rewrite (IH _ (S n) Hv). now rewrite Nat.add_succ_r.
Qed.

Lemma parseInt_hex (x : ascii) (hs rest : string) (v : Z) :
  x = "x"%char \/ x = "X"%char ->
  hs <> "" ->
  hex_value hs = Some v ->
  starts_with_hex_digit rest = false ->
  JS.parseInt (String "0" (String x (hs ++ rest))) = Some v.
Proof.
  intros Hx Hne Hv Hrest.
  pose proof (read_digits_hex_prefix hs rest 0 v 0 Hv Hrest) as R.
  unfold JS.parseInt.
  change (JS.trimStart (String "0" (String x (hs ++ rest))))
    with (String "0" (String x (hs ++ rest))).
  destruct hs as [|c hs]; [now contradiction Hne|].
  destruct Hx as [->| ->]; cbv beta iota zeta; rewrite R;
    cbn [String.length Nat.add]; now rewrite Z.mul_1_l.
Qed.

(** X11.  [parseInt] is called without a radix, so a value written as a
    hexadecimal literal, 0x or 0X and hex digits, is read in base 16 and
    made a [Number]: the number itself up to 2^53, the nearest double
    beyond.  The transform carries it as its width or height, and as
    its quality once brought down to 100. *)
Theorem parseTransformParams_hex (sp : URLSearchParams) (x : ascii)
    (hs rest : string) (v : Z) :
  x = "x"%char \/ x = "X"%char ->
  hs <> "" ->
  hex_value hs = Some v ->
  0 < v ->
  starts_with_hex_digit rest = false ->
  (get sp "width" = Some (String "0" (String x (hs ++ rest))) ->
     exists t, parseTransformParams sp = Some t
               /\ width t = Some (JS.to_Number v))
  /\ (get sp "height" = Some (String "0" (String x (hs ++ rest))) ->
        exists t, parseTransformParams sp = Some t
                  /\ height t = Some (JS.to_Number v))
  /\ (get sp "quality" = Some (String "0" (String x (hs ++ rest))) ->
        exists t, parseTransformParams sp = Some t
                  /\ quality t = Z.min v 100)
  /\ 0 < JS.to_Number v
  /\ (v <= 2 ^ 53 -> JS.to_Number v = v).
Proof.
  intros Hx Hne Hv Hpos Hrest.
  assert (JS.parseInt_Number (String "0" (String x (hs ++ rest)))
          = Some (JS.to_Number v)) as P
    by (unfold JS.parseInt_Number;
        now rewrite (parseInt_hex x hs rest v Hx Hne Hv Hrest)).
  pose proof (to_Number_positive _ Hpos) as Hn.
  assert ((0 <? JS.to_Number v) = true) as Hb by now apply Z.ltb_lt.
  repeat split; try exact Hn.
  - intros Hg. rewrite parseTransformParams_params. cbv zeta.
    rewrite (param_of_value sp _ _ Hg), P. cbn [gt0]. rewrite Hb.
    cbn [orb negb]. eexists. split; reflexivity.
  - intros Hg. rewrite parseTransformParams_params. cbv zeta.
    rewrite (param_of_value sp _ _ Hg), P. cbn [gt0]. rewrite Hb.
    rewrite ?orb_true_r. cbn [orb negb]. eexists. split; reflexivity.
  - intros Hg. rewrite parseTransformParams_params. cbv zeta.
    rewrite (param_of_value sp _ _ Hg), P. cbn [gt0]. rewrite Hb.
    rewrite ?orb_true_r. cbn [orb negb]. eexists. split; [reflexivity|].
    cbn [quality]. now apply to_Number_min.
  - intros Hle. apply to_Number_exact. lia.
Qed.

Lemma parseTransformParams_hex_witness :
  exists t, parseTransformParams [("width", "0x1F.5")] = Some t
            /\ width t = Some 31.
Proof.
  apply (proj1 (parseTransformParams_hex [("width", "0x1F.5")] "x" "1F" ".5" 31
                  (or_introl eq_refl) ltac:(discriminate) eq_refl eq_refl
                  eq_refl)).
  reflexivity.
Defined.

(** ** The redirect *)

Lemma split_not_nil (c : ascii) (s : string) : JS.split c s <> [].
Proof.
  destruct (split_last c s) as (init & seg & -> & _).
  now destruct init.
Qed.

(** Joining the pieces of a split gives the string back. *)
Lemma join_split (c : ascii) (s : string) :
  JS.join (String c "") (JS.split c s) = s.
Proof.
  unfold JS.join. induction s as [|d s IH]; [reflexivity|].
  cbn [JS.split]. pose proof (split_not_nil c s) as Hne.
  destruct (Ascii.eqb d c) eqn:E.
  - apply Ascii.eqb_eq in E. subst d.
    destruct (JS.split c s) as [|p ps]; [now contradiction Hne|].
    cbn [String.concat append] in *. now rewrite IH.
  - destruct (JS.split c s) as [|p ps]; [now contradiction Hne|].
    destruct ps as [|p' ps]; cbn [String.concat append] in *; now rewrite IH.
Qed.

Lemma split_piece (c : ascii) (a s : string) :
  no_char c a = true ->
  JS.split c (a ++ String c s) = a :: JS.split c s.
Proof.
  induction a as [|d a IH]; intros H.
  - cbn [append JS.split]. now rewrite Ascii.eqb_refl.
  - cbn [no_char] in H. apply andb_true_iff in H. destruct H as [Hd Ha].
    apply negb_true_iff in Hd.
    cbn [append JS.split]. now rewrite Hd, (IH Ha).
Qed.

Lemma length_split (c : ascii) (s : string) :
  List.length (JS.split c s) = S (count_char c s).
Proof.
  induction s as [|d s IH]; [reflexivity|].
  cbn [JS.split count_char]. destruct (Ascii.eqb d c).
  - cbn [List.length]. now rewrite IH.
  - destruct (JS.split c s) as [|p ps]; [discriminate IH | exact IH].
Qed.

(** X12.  The canonical name is what follows the third slash of the
    canonical path, further slashes included; a path with fewer than
    three slashes has the empty canonical name. *)
Theorem canonical_name_third_slash (a b rest path : string) :
  (no_char "/" a = true ->
   no_char "/" b = true ->
   canonical_name ("/" ++ a ++ "/" ++ b ++ "/" ++ rest) = rest)
  /\ ((count_char "/" path < 3)%nat -> canonical_name path = "").
Proof.
  split.
  - intros Ha Hb. unfold canonical_name.
    change ("/" ++ a ++ "/" ++ b ++ "/" ++ rest)
      with ("" ++ String "/" (a ++ String "/" (b ++ String "/" rest))).
    rewrite (split_piece "/" ""), (split_piece "/" a), (split_piece "/" b)
      by (assumption || reflexivity).
    cbn [skipn]. apply join_split.
  - intros H. unfold canonical_name.
    pose proof (length_split "/" path) as L.
    destruct (JS.split "/" path) as [|p1 [|p2 [|p3 [|p4 ps]]]];
      cbn [List.length] in L; try reflexivity. lia.
Qed.

Lemma canonical_name_third_slash_witness :
  canonical_name ("/" ++ "a" ++ "/" ++ "4M9EJZZtPhcA3iTjadiWkD" ++ "/"
                    ++ "2024/summer/new-name.png")
  = "2024/summer/new-name.png"
  /\ canonical_name "/a/4M9EJZZtPhcA3iTjadiWkD" = "".
Proof.
  split.
  - apply (proj1 (canonical_name_third_slash "a" "4M9EJZZtPhcA3iTjadiWkD"
                    "2024/summer/new-name.png" "")); reflexivity.
  - apply (proj2 (canonical_name_third_slash "" "" ""
                    "/a/4M9EJZZtPhcA3iTjadiWkD")).
    vm_compute. lia.
Defined.



(** X14.  A redirect is decided before the store is touched: when the
    requested name is not the canonical name, the answer is the same
    whatever the storage client, the fetch and the encoder are, an
    unavailable client and a failing fetch included. *)
Theorem GET_redirect_before_store (E : Env) (request : Request)
    (asset : Asset) (path : string)
    (client : result (option Supabase))
    (f : string -> result FetchResponse) (g : Pipeline -> result bytes) :
  found E request asset ->
  getAssetProxyUrl E asset = Ok (Some path) ->
  path <> "" ->
  JS.join "/" (name request) <> canonical_name path ->
  GET (with_store E client f g) request = GET E request
  /\ (status (GET E request) = 301 \/ GET E request = INTERNAL_SERVER_ERROR).
Proof.
  intros Hfound Hcanon Hne Hnames.
  assert (forall E', found E' request asset ->
            getAssetProxyUrl E' asset = Ok (Some path) ->
            GET E' request =
            match new_URL_on E' path (origin (url request)) with
            | Ok u => redirect_response
                        (href (set_search u (search (url request)))) 301
            | Throw _ => INTERNAL_SERVER_ERROR
            end) as P.
  { intros E' Hf' Hc'. unfold GET.
    rewrite (GET_try_found E' request asset Hf'), Hc'. cbn [bind].
    unfold check_canonical. cbn [truthy_string].
    apply String.eqb_neq in Hne, Hnames. rewrite Hne. cbn [negb]. cbv zeta.
    rewrite Hnames. cbn [negb].
    now destruct (new_URL_on E' path (origin (url request))). }
  split.
  - rewrite (P E Hfound Hcanon). now apply (P (with_store E client f g)).
  - rewrite (P E Hfound Hcanon).
    destruct (new_URL_on E path (origin (url request))); [now left | now right].
Qed.

Lemma GET_redirect_before_store_witness :
  GET (with_store example_env (Ok None)
         (fun _ => Throw (RuntimeError "network"))
         (fun _ => Throw (RuntimeError "encoder")))
      (example_request ["old-name.png"] "?width=200" [("width", "200")])
  = GET example_env
      (example_request ["old-name.png"] "?width=200" [("width", "200")])
  /\ (status (GET example_env
                (example_request ["old-name.png"] "?width=200"
                   [("width", "200")])) = 301
      \/ GET example_env
           (example_request ["old-name.png"] "?width=200" [("width", "200")])
         = INTERNAL_SERVER_ERROR).
Proof.
  apply (GET_redirect_before_store example_env _ example_asset
           "/a/4M9EJZZtPhcA3iTjadiWkD/new-name.png").
  - exists "8f2a4b1c-7d8e-4f12-b345-6789abcdef01".
    repeat split; vm_compute; reflexivity.
  - reflexivity.
  - discriminate.
  - vm_compute. discriminate.
Defined.

(** ** The answers with a body *)

Lemma dec_below (c : ascii) : dec_index c < 10.
Proof.
  unfold dec_index.
  destruct (JS.indexOf c JS.RADIX_DIGITS <? 10) eqn:E; [now apply Z.ltb_lt | lia].
Qed.






(** X16.  On an image whose bytes came back, with a width or a height
    that reads as positive: the pipeline has one resize step, with the
    dimensions that read as positive and no other, and encodes at the
    quality read, brought down to 100, or at 80 when none is read; the
    answer is what the encoder returns, or a 500 when it throws. *)
Theorem GET_resize (E : Env) (request : Request) (asset : Asset)
    (response : FetchResponse) :
  fetched E request asset response ->
  isAssetOfType E (mime_type asset) (ASSET_CATEGORIES_IMAGES E) = true ->
  gt0 (param (searchParams request) "width")
    || gt0 (param (searchParams request) "height") = true ->
  GET E request =
  match toBuffer E
          {| input := arrayBuffer response;
             resize := Some (positive (param (searchParams request) "width"),
                             positive (param (searchParams request) "height"));
             webp := Some (resolved_quality
                             (param (searchParams request) "quality")) |}
  with
  | Ok resized => transcoded resized
  | Throw _ => INTERNAL_SERVER_ERROR
  end.
Proof.
  intros Hf Himg Hdim. unfold GET.
  rewrite (GET_try_fetched E request asset response Hf).
  unfold respond. cbv zeta. rewrite parseTransformParams_params. cbv zeta.
  rewrite Hdim. cbn [orb negb]. rewrite Himg.
  unfold build_pipeline. cbv zeta. cbn [width height quality].
  fold (positive (param (searchParams request) "width")).
  fold (positive (param (searchParams request) "height")).
  fold (resolved_quality (param (searchParams request) "quality")).
  assert (truthy_number (positive (param (searchParams request) "width"))
          || truthy_number (positive (param (searchParams request) "height"))
          = true) as T.
  { unfold positive.
    destruct (param (searchParams request) "width") as [w|],
      (param (searchParams request) "height") as [h|];
      cbn [gt0] in *; try destruct (0 <? w) eqn:Ew;
      try destruct (0 <? h) eqn:Eh; try discriminate Hdim;
      cbn [truthy_number];
      try apply Z.ltb_lt in Ew; try apply Z.ltb_lt in Eh;
      repeat match goal with
             | |- context [?x =? 0] =>
                 replace (x =? 0) with false
                   by (symmetry; apply Z.eqb_neq; lia)
             end; cbn [negb orb]; rewrite ?orb_true_r; reflexivity. }
  rewrite T.
  unfold with_resize, with_webp, sharp. cbn [input resize webp].
  now destruct (toBuffer E _).
Qed.

Lemma GET_resize_witness :
  GET example_env
    (example_request ["new-name.png"] "?width=200&height=0"
       [("width", "200"); ("height", "0")])
  = match toBuffer example_env
            {| input := [Byte.x89; Byte.x50; Byte.x4e];
               resize := Some (Some 200, None);
               webp := Some 80 |}
    with
    | Ok resized => transcoded resized
    | Throw _ => INTERNAL_SERVER_ERROR
    end.
Proof.
  refine (GET_resize example_env
            (example_request ["new-name.png"] "?width=200&height=0"
               [("width", "200"); ("height", "0")])
            example_asset
            {| ok := true; arrayBuffer := [Byte.x89; Byte.x50; Byte.x4e] |}
            _ _ _).
  - apply example_fetched. reflexivity.
  - reflexivity.
  - reflexivity.
Defined.

(** X17.  When no width, height or quality reads as a positive number,
    the encoder is not run, image or not: whatever encoder is put in
    its place, the answer is the same.  The answer depends on the
    stored MIME type, or application/octet-stream when there is none,
    as [new Response] takes it for a header: when it passes, the status
    is 200, the body is the fetched bytes and the content type is that
    value, white space at its ends stripped; a stored type that is a
    header value as it stands is the content type as it stands; a
    stored type that is refused gives the 500. *)
Theorem GET_no_transform (E : Env) (request : Request) (asset : Asset)
    (response : FetchResponse) :
  fetched E request asset response ->
  gt0 (param (searchParams request) "width") = false ->
  gt0 (param (searchParams request) "height") = false ->
  gt0 (param (searchParams request) "quality") = false ->
  (forall contentType,
      JS.header_value (stored_type asset) = Ok contentType ->
      GET E request =
      {| status := 200;
         headers := [("Content-Type", contentType)];
         body := BodyBytes (arrayBuffer response) |})
  /\ (is_header_value (stored_type asset) = true ->
      GET E request =
      {| status := 200;
         headers := [("Content-Type", stored_type asset)];
         body := BodyBytes (arrayBuffer response) |})
  /\ (forall e,
        JS.header_value (stored_type asset) = Throw e ->
        status (GET E request) = 500
        /\ body (GET E request) = BodyText "Internal server error")
  /\ forall f, GET (with_toBuffer E f) request = GET E request.
Proof.
  intros Hf Hw Hh Hq.
  assert (forall E', fetched E' request asset response ->
            GET_try E' request = passthrough asset response) as P.
  { intros E' Hf'.
    rewrite (GET_try_fetched E' request asset response Hf').
    unfold respond. cbv zeta. rewrite parseTransformParams_params. cbv zeta.
    now rewrite Hw, Hh, Hq. }
  destruct (GET_passthrough E request asset response (P E Hf))
    as (H1 & H2 & H3).
  split; [exact H1|]. split; [exact H2|]. split; [exact H3|].
  intros f. unfold GET. rewrite (P E Hf).
  now rewrite (P _ (fetched_with_toBuffer E request asset response f Hf)).
Qed.

Lemma GET_no_transform_witness :
  GET example_env
    (example_request ["new-name.png"] "?width=abc&quality=-1"
       [("width", "abc"); ("quality", "-1")])
  = {| status := 200;
       headers := [("Content-Type", "image/png")];
       body := BodyBytes [Byte.x89; Byte.x50; Byte.x4e] |}.
Proof.
  refine (proj1 (proj2 (GET_no_transform example_env
                   (example_request ["new-name.png"] "?width=abc&quality=-1"
                      [("width", "abc"); ("quality", "-1")])
                   example_asset
                   {| ok := true;
                      arrayBuffer := [Byte.x89; Byte.x50; Byte.x4e] |}
                   _ _ _ _)) _).
  - apply example_fetched. reflexivity.
  - reflexivity.
  - reflexivity.
  - reflexivity.
  - reflexivity.
Defined.

(** ** The migration *)

Lemma filter_twice {A : Type} (f g : A -> bool) (l : list A) :
  filter f (filter g l) = filter (fun x => g x && f x) l.
Proof.
  induction l as [|x l IH]; [reflexivity|].
  cbn [filter]. destruct (g x); cbn [filter andb]; [|exact IH].
  destruct (f x); now rewrite IH.
Qed.

Lemma filter_all {A : Type} (f : A -> bool) (l : list A) :
  forallb f l = true -> filter f l = l.
Proof.
  induction l as [|x l IH]; [reflexivity|].
  cbn [forallb filter]. intros H. apply andb_true_iff in H.
  destruct H as [Hx Hl]. now rewrite Hx, (IH Hl).
Qed.

Lemma filter_forallb {A : Type} (f : A -> bool) (l : list A) :
  forallb f (filter f l) = true.
Proof.
  induction l as [|x l IH]; [reflexivity|].
  cbn [filter]. destruct (f x) eqn:E; [|exact IH].
  cbn [forallb]. now rewrite E, IH.
Qed.

(** The seven [DROP POLICY IF EXISTS] in a row. *)
Lemma seven_drops (ps : list Migration.Policy) :
  filter (fun p => negb (String.eqb (Migration.policy_name p)
                           "Authenticated users can delete assets"))
    (filter (fun p => negb (String.eqb (Migration.policy_name p)
                             "Authenticated users can update assets"))
       (filter (fun p => negb (String.eqb (Migration.policy_name p)
                                "Authenticated users can upload assets"))
          (filter (fun p => negb (String.eqb (Migration.policy_name p)
                                   "Anyone can delete assets"))
             (filter (fun p => negb (String.eqb (Migration.policy_name p)
                                      "Anyone can update assets"))
                (filter (fun p => negb (String.eqb (Migration.policy_name p)
                                         "Anyone can upload assets"))
                   (filter (fun p =>
                              negb (String.eqb (Migration.policy_name p)
                                      "Assets are publicly accessible"))
                      ps))))))
  = filter kept ps.
Proof.
  rewrite !filter_twice. apply filter_ext. intros p.
  unfold kept, is_dropped, DROPPED. cbn [existsb].
  repeat match goal with
         | |- context [String.eqb ?a ?b] => destruct (String.eqb a b)
         end; reflexivity.
Qed.

Lemma no_kept_named (name : string) (ps : list Migration.Policy) :
  is_dropped name = true ->
  existsb (fun q => String.eqb (Migration.policy_name q) name)
    (filter kept ps) = false.
Proof.
  intros Hd. induction ps as [|p ps IH]; [reflexivity|].
  cbn [filter]. destruct (kept p) eqn:K; [|exact IH].
  cbn [existsb]. rewrite IH, orb_false_r.
  apply String.eqb_neq. intros E. unfold kept in K. rewrite E, Hd in K.
  discriminate K.
Qed.

(** [up], statement by statement. *)
Lemma up_steps (db : Migration.Database) :
  Migration.up db =
  (b <- Migration.insert_bucket Migration.ASSETS db ;;
   Ok (Migration.set_policies b
         (filter kept (Migration.policies b) ++ CREATED)%list)).
Proof.
  unfold Migration.up.
  destruct (Migration.insert_bucket Migration.ASSETS db) as [b|e];
    [|reflexivity].
  destruct b as [B P O].
  cbn [bind]. unfold Migration.drop_policy_if_exists. cbn [bind].
  cbn [Migration.set_policies Migration.policies Migration.buckets
         Migration.objects].
  rewrite seven_drops.
  unfold Migration.create_policy, Migration.set_policies.
  cbn [Migration.policies Migration.buckets Migration.objects].
  rewrite (no_kept_named (Migration.policy_name Migration.PUBLIC_READ))
    by reflexivity.
  cbn [bind Migration.policies Migration.buckets Migration.objects].
  rewrite existsb_app,
    (no_kept_named (Migration.policy_name Migration.AUTHENTICATED_UPLOAD))
    by reflexivity.
  change (existsb _ [Migration.PUBLIC_READ]) with false.
  cbn [orb bind Migration.policies Migration.buckets Migration.objects].
  rewrite !existsb_app,
    (no_kept_named (Migration.policy_name Migration.AUTHENTICATED_UPDATE))
    by reflexivity.
  change (existsb _ [Migration.PUBLIC_READ]) with false.
  change (existsb _ [Migration.AUTHENTICATED_UPLOAD]) with false.
  cbn [orb bind Migration.policies Migration.buckets Migration.objects].
  rewrite !existsb_app,
    (no_kept_named (Migration.policy_name Migration.AUTHENTICATED_DELETE))
    by reflexivity.
  change (existsb _ [Migration.PUBLIC_READ]) with false.
  change (existsb _ [Migration.AUTHENTICATED_UPLOAD]) with false.
  change (existsb _ [Migration.AUTHENTICATED_UPDATE]) with false.
  cbn [orb]. unfold CREATED. now rewrite <- !app_assoc.
Qed.

(** [down], statement by statement. *)
Lemma down_steps (db : Migration.Database) :
  Migration.down db =
  Migration.delete_bucket "assets"
    (Migration.set_policies db (filter kept (Migration.policies db))).
Proof.
  unfold Migration.down, Migration.drop_policy_if_exists. cbn [bind].
  cbn [Migration.set_policies Migration.policies Migration.buckets
         Migration.objects].
  now rewrite seven_drops.
Qed.

Lemma insert_assets (db : Migration.Database) :
  Migration.insert_bucket Migration.ASSETS db =
  if has_bucket "assets" db then Ok db
  else if has_bucket_named "assets" db
       then Throw (RuntimeError
                     "duplicate key value violates unique constraint")
       else Ok (Migration.set_buckets db
                  (Migration.buckets db ++ [Migration.ASSETS])%list).
Proof. reflexivity. Qed.

Lemma kept_again (ps : list Migration.Policy) :
  filter kept (filter kept ps ++ CREATED)%list = filter kept ps.
Proof.
  rewrite filter_app, (filter_all kept (filter kept ps))
    by apply filter_forallb.
  change (filter kept CREATED) with (@nil Migration.Policy).
  apply app_nil_r.
Qed.

(** X18.  [up] fails in one case only, a bucket of another id that is
    named assets; the statements on policies never fail, each [CREATE]
    coming after the [DROP] of its name.  Run again on the database it
    has produced, [up] changes nothing. *)
Theorem migration_up_rerun (db : Migration.Database) :
  ((exists db', Migration.up db = Ok db')
   <-> (has_bucket "assets" db = true \/ has_bucket_named "assets" db = false))
  /\ (forall db', Migration.up db = Ok db' -> Migration.up db' = Ok db').
Proof.
  rewrite up_steps, insert_assets. split.
  - destruct (has_bucket "assets" db);
      [|destruct (has_bucket_named "assets" db)]; cbn [bind]; split;
      intros H; try (eexists; reflexivity); auto.
    + destruct H as [db' H]. discriminate H.
    + destruct H as [H|H]; discriminate H.
  - intros db' H. rewrite up_steps, insert_assets.
    destruct (has_bucket "assets" db) eqn:Hb;
      [|destruct (has_bucket_named "assets" db); [discriminate H|]];
      cbn [bind] in H; injection H as <-.
    + unfold has_bucket in *. cbn [Migration.set_policies Migration.buckets].
      rewrite Hb. cbn [bind Migration.set_policies Migration.policies
                         Migration.buckets Migration.objects].
      now rewrite kept_again.
    + unfold has_bucket.
      cbn [Migration.set_policies Migration.set_buckets Migration.buckets].
      rewrite existsb_app. cbn [existsb]. rewrite orb_true_r.
      cbn [bind Migration.set_policies Migration.policies
             Migration.buckets Migration.objects].
      now rewrite kept_again.
Qed.

Lemma migration_up_rerun_witness :
  exists db',
    Migration.up example_database = Ok db' /\ Migration.up db' = Ok db'.
Proof.
  destruct (proj2 (proj1 (migration_up_rerun example_database))
              (or_intror eq_refl)) as [db' H].
  exists db'. split; [exact H|].
  exact (proj2 (migration_up_rerun example_database) db' H).
Defined.

(** X19.  After [up] the policies are those that were there under other
    names, untouched, then the four of [up]: whatever stood under one
    of the seven names, the open policies of old among them, is gone.
    The stored objects are as they were. *)
Theorem migration_up_policies (db db' : Migration.Database) :
  Migration.up db = Ok db' ->
  Migration.policies db'
  = (filter kept (Migration.policies db) ++ CREATED)%list
  /\ Migration.objects db' = Migration.objects db
  /\ (forall p, In p (Migration.policies db') ->
        is_dropped (Migration.policy_name p) = true -> In p CREATED).
Proof.
  rewrite up_steps, insert_assets. intros H.
  assert (Migration.policies db'
          = (filter kept (Migration.policies db) ++ CREATED)%list
          /\ Migration.objects db' = Migration.objects db) as [HP HO].
  { destruct (has_bucket "assets" db);
      [|destruct (has_bucket_named "assets" db); [discriminate H|]];
      cbn [bind] in H; injection H as <-; split; reflexivity. }
  split; [exact HP|]. split; [exact HO|].
  intros p Hin Hd. rewrite HP in Hin. apply in_app_or in Hin.
  destruct Hin as [Hin|Hin]; [|exact Hin].
  apply filter_In in Hin. destruct Hin as [_ K]. unfold kept in K.
  rewrite Hd in K. discriminate K.
Qed.

Lemma migration_up_policies_witness :
  exists db',
    Migration.up example_database = Ok db'
    /\ map Migration.policy_name (Migration.policies db')
       = [ "Avatars are private"; "Assets are publicly accessible";
           "Authenticated users can upload assets";
           "Authenticated users can update assets";
           "Authenticated users can delete assets" ].
Proof.
  eexists. split; [reflexivity|].
  rewrite (proj1 (migration_up_policies example_database _ eq_refl)).
  reflexivity.
Defined.

(** X20.  [up] does not touch a bucket that is there under the id
    assets, whatever its settings, a private one too; it adds the public
    bucket only when there is none, and leaves every other bucket. *)
Theorem migration_up_bucket (db db' : Migration.Database) :
  Migration.up db = Ok db' ->
  (has_bucket "assets" db = true ->
     Migration.buckets db' = Migration.buckets db)
  /\ (has_bucket "assets" db = false ->
        Migration.buckets db'
        = (Migration.buckets db ++ [Migration.ASSETS])%list).
Proof.
  rewrite up_steps, insert_assets. intros H.
  destruct (has_bucket "assets" db);
    [|destruct (has_bucket_named "assets" db); [discriminate H|]];
    cbn [bind] in H; injection H as <-; split; intros E;
    try discriminate E; reflexivity.
Qed.

Lemma migration_up_bucket_witness :
  exists db',
    Migration.up example_database = Ok db'
    /\ map Migration.bucket_id (Migration.buckets db') = ["avatars"; "assets"].
Proof.
  eexists. split; [reflexivity|].
  rewrite (proj2 (migration_up_bucket example_database _ eq_refl) eq_refl).
  reflexivity.
Defined.

(** X21.  [down] fails while a stored object is in the bucket; with
    none, it takes away the bucket and whatever stands under the seven
    names, and nothing else. *)
Theorem migration_down (db : Migration.Database) :
  (has_files "assets" db = true -> exists e, Migration.down db = Throw e)
  /\ (has_files "assets" db = false ->
        Migration.down db =
        Ok {| Migration.buckets :=
                filter (fun b => negb (String.eqb (Migration.bucket_id b)
                                         "assets"))
                  (Migration.buckets db);
              Migration.policies := filter kept (Migration.policies db);
              Migration.objects := Migration.objects db |}).
Proof.
  rewrite down_steps. unfold Migration.delete_bucket, has_files.
  cbn [Migration.set_policies Migration.objects].
  split; intros H; rewrite H; [eexists|]; reflexivity.
Qed.

Lemma migration_down_witness :
  (exists e,
      Migration.down
        {| Migration.buckets := [Migration.ASSETS];
           Migration.policies := CREATED;
           Migration.objects := ["avatars"; "assets"] |} = Throw e)
  /\ Migration.down
       {| Migration.buckets := [Migration.ASSETS];
          Migration.policies := CREATED;
          Migration.objects := ["avatars"] |}
     = Ok {| Migration.buckets := [];
             Migration.policies := [];
             Migration.objects := ["avatars"] |}.
Proof.
  split.
  - apply (proj1 (migration_down _)). reflexivity.
  - rewrite (proj2 (migration_down _)) by reflexivity. reflexivity.
Defined.

(** X22.  On a database with no bucket of the id or the name assets, no
    policy under one of the seven names and no object in the bucket,
    [down] after [up] gives the database back. *)
Theorem migration_down_up (db : Migration.Database) :
  has_bucket "assets" db = false ->
  has_bucket_named "assets" db = false ->
  has_files "assets" db = false ->
  forallb kept (Migration.policies db) = true ->
  (db' <- Migration.up db ;; Migration.down db') = Ok db.
Proof.
  intros Hb Hn Hf Hk. rewrite up_steps, insert_assets, Hb, Hn. cbn [bind].
  rewrite down_steps. unfold Migration.delete_bucket.
  destruct db as [B P O]. unfold has_files, has_bucket in *.
  cbn [Migration.set_policies Migration.set_buckets Migration.policies
         Migration.buckets Migration.objects] in *.
  rewrite Hf, kept_again, (filter_all kept P Hk), filter_app.
  change (filter _ [Migration.ASSETS]) with (@nil Migration.Bucket).
  rewrite app_nil_r, filter_all; [reflexivity|].
  clear -Hb. induction B as [|b B IH]; [reflexivity|].
  cbn [existsb forallb] in *. apply orb_false_iff in Hb.
  destruct Hb as [Hb1 Hb2]. now rewrite Hb1, (IH Hb2).
Qed.

Lemma migration_down_up_witness :
  (db' <- Migration.up
            {| Migration.buckets := Migration.buckets example_database;
               Migration.policies := [];
               Migration.objects := Migration.objects example_database |} ;;
   Migration.down db')
  = Ok {| Migration.buckets := Migration.buckets example_database;
          Migration.policies := [];
          Migration.objects := Migration.objects example_database |}.
Proof.
  apply migration_down_up; reflexivity.
Defined.
